(** * pants: build-environment facts, the git facade and the task registrar

    A shallow embedding of

      - [src/python/pants/base/build_environment.py]
        ([is_in_container], [Git], [get_git]) and
      - [src/python/pants/goal/task_registrar.py]
        ([TaskRegistrar.__init__] and its generated [FuncTask] adapter),

    together with the part of the Python runtime these functions rest on
    (text decoding, [str.strip], [str.split], [str.splitlines],
    [pathlib.PurePosixPath]).

    Effects are explicit.  Everything the code asks of the operating
    system (spawning a process, the current directory, file existence,
    path resolution) is a field of the record [OS]; the functions are
    computations in a state-and-exception monad over a process state that
    holds the OS world, the module-level slot [_Git], the log, and a ghost
    trace of every command line handed to [subprocess]. *)

From Stdlib Require Import ZArith NArith List String Ascii Strings.Byte DecimalString.
From stdpp Require Import base option list countable gmap.
Import ListNotations.

Set Default Proof Using "Type".

(* ===================================================================== *)
(** ** Python values: text, bytes, exceptions                             *)
(* ===================================================================== *)

Module Py.

(** A Python [str] is a sequence of Unicode code points; [bytes] is a
    sequence of octets. *)
Abbreviation str := (list N).
Abbreviation bytes := (list byte).

(** Literals of the source, all ASCII. *)
Definition u (s : string) : str := map N_of_ascii (list_ascii_of_string s).
Definition b (s : string) : bytes := list_byte_of_string s.

(** The exceptions that the modelled code raises or lets through. *)
Inductive exn : Type :=
  | GitException (msg : str)
  | GoalError (msg : str)
  | AssertionError (msg : str)
  | OSError (repr : str)
  | UnicodeDecodeError
  | ValueError
  | TypeError.

#[global] Instance exn_eq_dec : EqDecision exn.
Proof. solve_decision. Defined.

(** [result A]: an exception or a value. *)
Abbreviation result A := (exn + A)%type.
Abbreviation Raise e := (inl e) (only parsing).
Abbreviation Return v := (inr v) (only parsing).

Definition is_GitException (e : exn) : bool :=
  match e with GitException _ => true | _ => false end.

(** *** [bytes.decode()]: strict UTF-8 *)

Definition is_cont (x : N) : bool := (128 <=? x)%N && (x <=? 191)%N.
Definition between (lo hi x : N) : bool := (lo <=? x)%N && (x <=? hi)%N.
Definition cont_bits (x : N) : N := (x - 128)%N.

(** Shortest-form UTF-8 only; surrogates and code points above U+10FFFF
    are refused, as CPython's decoder does with [errors='strict']. *)
Fixpoint utf8_decode (bs : list N) : option str :=
  match bs with
  | [] => Some []
  | b0 :: r0 =>
    if (b0 <? 128)%N then cons b0 <$> utf8_decode r0
    else if between 194 223 b0 then
      match r0 with
      | b1 :: r1 =>
        if is_cont b1
        then cons ((b0 - 192) * 64 + cont_bits b1)%N <$> utf8_decode r1
        else None
      | _ => None
      end
    else if between 224 239 b0 then
      match r0 with
      | b1 :: b2 :: r2 =>
        if between (if (b0 =? 224)%N then 160 else 128)
                   (if (b0 =? 237)%N then 159 else 191) b1 && is_cont b2
        then cons ((b0 - 224) * 4096 + cont_bits b1 * 64 + cont_bits b2)%N
               <$> utf8_decode r2
        else None
      | _ => None
      end
    else if between 240 244 b0 then
      match r0 with
      | b1 :: b2 :: b3 :: r3 =>
        if between (if (b0 =? 240)%N then 144 else 128)
                   (if (b0 =? 244)%N then 143 else 191) b1
           && is_cont b2 && is_cont b3
        then cons ((b0 - 240) * 262144 + cont_bits b1 * 4096
                   + cont_bits b2 * 64 + cont_bits b3)%N
               <$> utf8_decode r3
        else None
      | _ => None
      end
    else None
  end.

Definition bytes_decode (x : bytes) : result str :=
  match utf8_decode (map Byte.to_N x) with
  | Some s => Return s
  | None => Raise UnicodeDecodeError
  end.

(** *** Whitespace, [strip], [split], [splitlines], [join], [in] *)

(** [str.isspace] on one code point (CPython's [_PyUnicode_IsWhitespace]). *)
Definition isspace (c : N) : bool :=
  between 9 13 c || between 28 32 c || (c =? 133)%N || (c =? 160)%N
  || (c =? 5760)%N || between 8192 8202 c || (c =? 8232)%N || (c =? 8233)%N
  || (c =? 8239)%N || (c =? 8287)%N || (c =? 12288)%N.

(** Line boundaries of [str.splitlines] (CPython's [_PyUnicode_IsLinebreak]). *)
Definition islinebreak (c : N) : bool :=
  between 10 13 c || between 28 30 c || (c =? 133)%N
  || (c =? 8232)%N || (c =? 8233)%N.

Fixpoint lstrip (s : str) : str :=
  match s with
  | c :: r => if isspace c then lstrip r else s
  | [] => []
  end.

Definition rstrip (s : str) : str := rev (lstrip (rev s)).

(** [s.strip()] *)
Definition strip (s : str) : str := rstrip (lstrip s).

(** [s.split()]: the maximal runs of non-whitespace, in order. *)
Fixpoint split_from (cur : str) (s : str) : list str :=
  match s with
  | [] => if cur is [] then [] else [rev cur]
  | c :: r =>
    if isspace c
    then (if cur is [] then split_from [] r else rev cur :: split_from [] r)
    else split_from (c :: cur) r
  end.

Definition split (s : str) : list str := split_from [] s.

(** [s.splitlines()]: cut at every line boundary, CR LF counting as one;
    no empty last line. *)
Fixpoint splitlines_from (cur : str) (s : str) : list str :=
  match s with
  | [] => if cur is [] then [] else [rev cur]
  | c :: r =>
    if (c =? 13)%N then
      match r with
      | c' :: r' =>
        if (c' =? 10)%N then rev cur :: splitlines_from [] r'
        else rev cur :: splitlines_from [] r
      | [] => [rev cur]
      end
    else if islinebreak c then rev cur :: splitlines_from [] r
    else splitlines_from (c :: cur) r
  end.

Definition splitlines (s : str) : list str := splitlines_from [] s.

(** [sep.join(l)] *)
Fixpoint join (sep : str) (l : list str) : str :=
  match l with
  | [] => []
  | [x] => x
  | x :: r => x ++ sep ++ join sep r
  end.

(** [s.startswith(p)] and [p in s] *)
Fixpoint startswith (p s : str) : bool :=
  match p, s with
  | [], _ => true
  | a :: p', c :: s' => (a =? c)%N && startswith p' s'
  | _ :: _, [] => false
  end.

Fixpoint contains (p s : str) : bool :=
  startswith p s || match s with [] => false | _ :: s' => contains p s' end.

(** Truth value of a [str] and of an optional value ([None] is false). *)
Definition truthy (s : str) : bool := if s is [] then false else true.

(** [str(n)] for an [int]. *)
Definition str_of_int (n : Z) : str := u (NilZero.string_of_int (Z.to_int n)).

(** [a or b] where [a : str | None]. *)
Definition str_or (a : option str) (d : str) : str :=
  match a with
  | Some s => if truthy s then s else d
  | None => d
  end.

End Py.

(* ===================================================================== *)
(** ** [pathlib]: pure POSIX paths                                        *)
(* ===================================================================== *)

Module pathlib.
Import Py.

(** A parsed path: the root (empty, one slash or two slashes) and the
    names after it. *)
Record PurePath : Type := mkPath { root : str; names : list str }.

#[global] Instance PurePath_eq_dec : EqDecision PurePath.
Proof. solve_decision. Defined.

Definition sep : N := 47%N.

Fixpoint lstrip_sep (s : str) : str :=
  match s with
  | c :: r => if (c =? sep)%N then lstrip_sep r else s
  | [] => []
  end.

(** [part.split('/')] *)
Fixpoint split_sep_from (cur : str) (s : str) : list str :=
  match s with
  | [] => [rev cur]
  | c :: r =>
    if (c =? sep)%N then rev cur :: split_sep_from [] r
    else split_sep_from (c :: cur) r
  end.

Definition split_sep (s : str) : list str := split_sep_from [] s.

(** [_PosixFlavour.splitroot]: exactly two leading slashes are kept apart. *)
Definition splitroot (part : str) : str * str :=
  match part with
  | c :: _ =>
    if (c =? sep)%N then
      let stripped := lstrip_sep part in
      if (length part - length stripped =? 2)%nat
      then ([sep; sep], stripped) else ([sep], stripped)
    else ([], part)
  | [] => ([], part)
  end.

Definition keep_name (x : str) : bool :=
  truthy x && negb (bool_decide (x = u ".")).

(** [PurePath(s)] *)
Definition parse (s : str) : PurePath :=
  let '(r, rel) := splitroot s in
  mkPath r (List.filter keep_name (split_sep rel)).

(** [str(p)] *)
Definition to_str (p : PurePath) : str :=
  match root p, names p with
  | [], [] => u "."
  | r, ns => r ++ join [sep] ns
  end.

(** [p / s] for a [str] on the right: a rooted right operand replaces [p]. *)
Definition truediv (p : PurePath) (s : str) : PurePath :=
  let q := parse s in
  if truthy (root q) then q else mkPath (root p) (names p ++ names q).

Fixpoint strip_prefix (pre l : list str) : option (list str) :=
  match pre, l with
  | [], _ => Some l
  | x :: pre', y :: l' => if bool_decide (x = y) then strip_prefix pre' l' else None
  | _ :: _, [] => None
  end.

(** [p.relative_to(other)]: purely lexical; [ValueError] unless [other]
    is a leading part of [p]. *)
Definition relative_to (p other : PurePath) : result PurePath :=
  if bool_decide (root p = root other) then
    match strip_prefix (names other) (names p) with
    | Some rest => Return (mkPath [] rest)
    | None => Raise ValueError
    end
  else Raise ValueError.

(** An argument typed [PurePath | str]. *)
Inductive PathLike : Type :=
  | PStr (s : str)
  | PPath (p : PurePath).

(** [PurePath(x)] and [str(x)] *)
Definition PurePath_of (x : PathLike) : PurePath :=
  match x with PStr s => parse s | PPath p => p end.

Definition str_of (x : PathLike) : str :=
  match x with PStr s => s | PPath p => to_str p end.

(** Truth value: a path object is always true, a [str] when non-empty. *)
Definition truthy_path (x : PathLike) : bool :=
  match x with PStr s => truthy s | PPath _ => true end.

End pathlib.

(* ===================================================================== *)
(** ** [pants.base.build_environment]                                     *)
(* ===================================================================== *)

Module build_environment.
Import Py pathlib.

(** *** The operating system, as the module sees it *)

(** What [subprocess.Popen(cmd, stdout=PIPE, stderr=PIPE)] followed by
    [communicate()] yields: an [OSError] (with its repr) when the binary
    cannot be launched, else the exit status and both captured streams. *)
Inductive Completed : Type :=
  | LaunchFailed (repr : str)
  | Exited (returncode : Z) (out err : bytes).

(** What [subprocess.call(cmd)] yields: an [OSError] or the exit status. *)
Inductive Called : Type :=
  | CallFailed (repr : str)
  | CallExited (returncode : Z).

Record OS : Type := mkOS {
  World : Type;
  (** [os.getcwd()] *)
  os_getcwd : World -> str;
  (** [os.chdir(d)]: the world after it, or an [OSError] repr *)
  os_chdir : str -> World -> str + World;
  (** [Path(p).resolve()] *)
  Path_resolve : PurePath -> World -> PurePath;
  (** [Path(p).exists()] *)
  Path_exists : PurePath -> World -> bool;
  (** the bytes [Path(p).read_text] decodes, or the error of the read *)
  Path_read_bytes : PurePath -> World -> result bytes;
  (** one run of a process with captured output, and the world after it *)
  Popen_communicate : list str -> World -> Completed * World;
  (** one run of a process with inherited output, and the world after it *)
  subprocess_call : list str -> World -> Called * World
}.

(** *** The [Git] dataclass and the module state *)

Record Git : Type := mkGit {
  worktree : PurePath;
  _gitdir : PurePath;
  _gitcmd : str
}.

#[global] Instance Git_eq_dec : EqDecision Git.
Proof. solve_decision. Defined.

(** The module-level slot [_Git : _GitInitialized | Git | None]. *)
Inductive GitSlot : Type :=
  | NO
  | Cached (g : option Git).

Inductive Level : Type := DEBUG | INFO.

(** Log records.  The two messages of [get_git] are kept structured: they
    interpolate a path, an optional branch and the repr of an exception. *)
Inductive LogMsg : Type :=
  | Text (s : str)
  | Detected (worktree : PurePath) (branch : option str)
  | NoRepository (cwd : str) (e : exn).

Section WithOS.
Context {os : OS}.

Record State : Type := mkState {
  world : World os;
  _Git : GitSlot;
  log : list (Level * LogMsg);
  (** ghost: every command line handed to [subprocess], oldest first *)
  spawned : list (list str)
}.

Definition set_world (w : World os) (s : State) : State :=
  mkState w (_Git s) (log s) (spawned s).
Definition set__Git (g : GitSlot) (s : State) : State :=
  mkState (world s) g (log s) (spawned s).
Definition add_log (r : Level * LogMsg) (s : State) : State :=
  mkState (world s) (_Git s) (log s ++ [r]) (spawned s).
Definition add_spawned (cmd : list str) (s : State) : State :=
  mkState (world s) (_Git s) (log s) (spawned s ++ [cmd]).

(** *** The monad: state, plus an exception or a value *)

Definition M (A : Type) : Type := State -> result A * State.

Definition ret {A} (a : A) : M A := fun s => (Return a, s).
Definition raise {A} (e : exn) : M A := fun s => (Raise e, s).
Definition lift {A} (r : result A) : M A := fun s => (r, s).
Definition bind {A B} (m : M A) (k : A -> M B) : M B :=
  fun s => match m s with
           | (Return a, s') => k a s'
           | (Raise e, s') => (Raise e, s')
           end.

Definition map_M {A B} (f : A -> B) (m : M A) : M B :=
  bind m (fun a => ret (f a)).

Notation "x <- m ;; k" := (bind m (fun x => k))
  (at level 100, m at next level, right associativity).
Notation "m ;;; k" := (bind m (fun _ => k))
  (at level 100, right associativity).

(** [try: body  except <kind> as e: handler e] *)
Definition try_except {A} (body : M A) (kind : exn -> bool)
    (handler : exn -> M A) : M A :=
  fun s => match body s with
           | (Raise e, s') => if kind e then handler e s' else (Raise e, s')
           | r => r
           end.

(** [try: body  finally: cleanup] *)
Definition try_finally {A} (body : M A) (cleanup : M unit) : M A :=
  fun s => let '(r, s') := body s in
           match cleanup s' with
           | (Raise e, s'') => (Raise e, s'')
           | (Return _, s'') => (r, s'')
           end.

Definition get {A} (f : State -> A) : M A := fun s => (Return (f s), s).
Definition modify (f : State -> State) : M unit := fun s => (Return tt, f s).

Definition getcwd : M str := get (fun s => os_getcwd os (world s)).
Definition chdir (d : str) : M unit :=
  fun s => match os_chdir os d (world s) with
           | inl r => (Raise (OSError r), s)
           | inr w => (Return tt, set_world w s)
           end.
Definition resolve (p : PurePath) : M PurePath :=
  get (fun s => Path_resolve os p (world s)).
Definition exists_ (p : PurePath) : M bool :=
  get (fun s => Path_exists os p (world s)).
(** [p.read_text('utf-8')] *)
Definition read_text (p : PurePath) : M str :=
  fun s => match Path_read_bytes os p (world s) with
           | Return x => (bytes_decode x, s)
           | Raise e => (Raise e, s)
           end.
Definition logger (lvl : Level) (m : LogMsg) : M unit :=
  modify (add_log (lvl, m)).
(** [subprocess.call(cmd)]; a failure to launch is an [OSError]. *)
Definition call_process (cmd : list str) : M Z :=
  fun s =>
    let s := add_spawned cmd s in
    match subprocess_call os cmd (world s) with
    | (CallFailed r, w) => (Raise (OSError r), set_world w s)
    | (CallExited rc, w) => (Return rc, set_world w s)
    end.

(** Modelled from the spec: [pants.util.contextutil.pushd], the scoped
    change of working directory; the previous directory is restored
    afterwards, also when the body fails. *)
Definition pushd {A} (directory : str) (body : M A) : M A :=
  cwd <- getcwd ;;
  chdir directory ;;;
  try_finally body (chdir cwd).

(** *** [is_in_container] *)

Definition is_in_container : M bool :=
  let cgroup := parse (u "/proc/self/cgroup") in
  e1 <- exists_ (parse (u "/.dockerenv")) ;;
  if e1 : bool then ret true else
  e2 <- exists_ (parse (u "/run/.containerenv")) ;;
  if e2 : bool then ret true else
  e3 <- exists_ cgroup ;;
  if e3 : bool then
    text <- read_text cgroup ;;
    ret (contains (u "docker") text)
  else ret false.

(** *** [class Git] *)

(** [Git.__init__(worktree=None, *, gitdir=None, binary='git')];
    [None] for [binary] stands for the argument left out. *)
Definition Git__init__ (worktree gitdir : option PathLike)
    (binary : option str) : M Git :=
  start <- match worktree with
           | Some x => if truthy_path x then ret (PurePath_of x)
                       else map_M parse getcwd
           | None => map_M parse getcwd
           end ;;
  wt <- resolve start ;;
  gd <- match gitdir with
        | Some x => if truthy_path x then resolve (PurePath_of x)
                    else ret (truediv wt (u ".git"))
        | None => ret (truediv wt (u ".git"))
        end ;;
  ret (mkGit wt gd (default (u "git") binary)).

Definition _invoke (cmd : list str) : M (Z * bytes * bytes) :=
  fun s =>
    let s := add_spawned cmd s in
    match Popen_communicate os cmd (world s) with
    | (LaunchFailed r, w) =>
      let cmd_str := join (u " ") cmd in
      (Raise (GitException
                (u "Failed to execute command " ++ cmd_str ++ u ": " ++ r)),
       set_world w s)
    | (Exited rc out err, w) => (Return (rc, out, err), set_world w s)
    end.

Definition _cleanse (output : bytes) : M str :=
  map_M strip (lift (bytes_decode output)).

Definition _check_result (cmd : list str) (result : Z)
    (failure_msg : option str) : M unit :=
  if bool_decide (result ≠ 0%Z) then
    let cmd_str := join (u " ") cmd in
    raise (GitException
             (str_or failure_msg
                (cmd_str ++ u " failed with exit code " ++ str_of_int result)))
  else ret tt.

(** [Git.mount(subdir=None, *, binary='git')] *)
Definition mount (subdir binary : option PathLike) : M Git :=
  let cmd := [str_of (default (PStr (u "git")) binary);
              u "rev-parse"; u "--show-toplevel"] in
  r <- match subdir with
       | Some d => if truthy_path d then pushd (str_of d) (_invoke cmd)
                   else _invoke cmd
       | None => _invoke cmd
       end ;;
  let '(returncode, out, err) := r in
  msg <- lift (bytes_decode err) ;;
  _check_result cmd returncode (Some msg) ;;;
  top <- _cleanse out ;;
  Git__init__ (Some (PPath (parse top))) None None.

Definition _create_git_cmdline (self : Git) (args : list str) : list str :=
  [_gitcmd self;
   u "--git-dir=" ++ to_str (_gitdir self);
   u "--work-tree=" ++ to_str (worktree self)] ++ args.

Definition _log_call (cmd : list str) : M unit :=
  logger DEBUG (Text (u "Executing: " ++ join (u " ") cmd)).

Definition _check_call (self : Git) (args : list str) : M unit :=
  let cmd := _create_git_cmdline self args in
  _log_call cmd ;;;
  result <- call_process cmd ;;
  _check_result cmd result None.

Definition _check_output (self : Git) (args : list str) : M str :=
  let cmd := _create_git_cmdline self args in
  _log_call cmd ;;;
  r <- _invoke cmd ;;
  let '(returncode, out, err) := r in
  msg <- lift (bytes_decode err) ;;
  _check_result cmd returncode (Some msg) ;;;
  _cleanse out.

Definition current_rev_identifier (self : Git) : str := u "HEAD".

Definition commit_id (self : Git) : M str :=
  _check_output self [u "rev-parse"; u "HEAD"].

Definition branch_name (self : Git) : M (option str) :=
  branch <- _check_output self [u "rev-parse"; u "--abbrev-ref"; u "HEAD"] ;;
  ret (if bool_decide (branch = u "HEAD") then None else Some branch).

Definition _fix_git_relative_path (self : Git) (worktree_path : str)
    (rel : PathLike) : result str :=
  match relative_to (truediv (worktree self) worktree_path)
                    (PurePath_of rel) with
  | Return p => Return (to_str p)
  | Raise e => Raise e
  end.

(** A set comprehension [{f(x) for x in xs}] whose body may raise. *)
Fixpoint comprehension (f : str -> result str) (xs : list str)
    : result (gset str) :=
  match xs with
  | [] => Return ∅
  | x :: r =>
    match f x with
    | Raise e => Raise e
    | Return y =>
      match comprehension f r with
      | Raise e => Raise e
      | Return ys => Return ({[ y ]} ∪ ys)
      end
    end
  end.

Definition changed_files (self : Git) (from_commit : option str)
    (include_untracked : bool) (rel : option PathLike) : M (gset str) :=
  let relative_to := match rel with
                     | Some r => PurePath_of r
                     | None => worktree self
                     end in
  let rel_suffix := [u "--"; to_str relative_to] in
  uncommitted_changes <-
    _check_output self ([u "diff"; u "--name-only"; u "HEAD"] ++ rel_suffix) ;;
  let files : gset str := list_to_set (splitlines uncommitted_changes) in
  files <- match from_commit with
           | Some c =>
             if truthy c then
               let committed_cmd :=
                 [u "diff"; u "--name-only"; c ++ u "...HEAD"] ++ rel_suffix in
               committed_changes <- _check_output self committed_cmd ;;
               ret (files ∪ list_to_set (split committed_changes))
             else ret files
           | None => ret files
           end ;;
  files <- (if include_untracked then
              let untracked_cmd :=
                [u "ls-files"; u "--other"; u "--exclude-standard";
                 u "--full-name"] ++ rel_suffix in
              untracked <- _check_output self untracked_cmd ;;
              ret (files ∪ list_to_set (split untracked))
            else ret files) ;;
  lift (comprehension
          (fun f => _fix_git_relative_path self f (PPath relative_to))
          (elements files)).

Definition changes_in (self : Git) (diffspec : str)
    (rel : option PathLike) : M (gset str) :=
  let relative_to := match rel with
                     | Some r => PurePath_of r
                     | None => worktree self
                     end in
  let cmd := [u "diff-tree"; u "--no-commit-id"; u "--name-only"; u "-r";
              diffspec] in
  files <- map_M split (_check_output self cmd) ;;
  lift (comprehension
          (fun f => _fix_git_relative_path self (strip f) (PPath relative_to))
          files).

Definition commit (self : Git) (message : str) : M unit :=
  _check_call self [u "commit"; u "--all"; u "--message"; message].

Definition add (self : Git) (paths : list PurePath) : M unit :=
  _check_call self (u "add" :: map to_str paths).

(** *** [get_git]

    The function under its [@deprecated] decorator; the decorator itself
    belongs to [pants.base.deprecated] and is not part of the model.  The
    value returned is the slot itself. *)
Definition get_git : M GitSlot :=
  slot <- get _Git ;;
  match slot with
  | NO =>
    try_except
      (git <- mount None None ;;
       branch <- branch_name git ;;
       logger DEBUG (Detected (worktree git) branch) ;;;
       modify (set__Git (Cached (Some git))))
      is_GitException
      (fun e =>
         cwd <- getcwd ;;
         logger INFO (NoRepository cwd e) ;;;
         modify (set__Git (Cached None)))
  | Cached _ => ret tt
  end ;;;
  get _Git.

End WithOS.

Arguments State : clear implicits.
Arguments M : clear implicits.

End build_environment.

(* ===================================================================== *)
(** ** [pants.goal.task_registrar]                                        *)
(* ===================================================================== *)

Module task_registrar.
Import Py.

(** Python objects passed around by the registrar: opaque to it. *)
Inductive value : Type :=
  | VNone
  | VInt (n : Z)
  | VStr (s : str).

(** The tuple [inspect.getargspec] returns:
    [(args, varargs, keywords, defaults)]. *)
Record ArgSpec : Type := mkArgSpec {
  args : list str;
  varargs : option str;
  keywords : option str;
  defaults : option (list value)
}.

(** A Python function: its signature and what a call with given
    positional arguments yields once they are bound. *)
Record PyFunction : Type := mkFunction {
  argspec : ArgSpec;
  body : list value -> result value
}.

(** Binding positional arguments to the signature: too few or too many
    is a [TypeError]. *)
Definition accepts (a : ArgSpec) (n : nat) : bool :=
  let n_defaults := match defaults a with Some d => length d | None => 0%nat end in
  (length (args a) - n_defaults <=? n)%nat
  && ((n <=? length (args a))%nat || bool_decide (is_Some (varargs a))).

Definition call_function (f : PyFunction) (actuals : list value) : result value :=
  if accepts (argspec f) (length actuals) then body f actuals
  else Raise TypeError.

(** What [self.action] holds: the function itself, or
    [functools.partial(action, bound...)]. *)
Inductive Callable : Type :=
  | Plain (f : PyFunction)
  | Partial (f : PyFunction) (bound : list value).

Definition call (c : Callable) (actuals : list value) : result value :=
  match c with
  | Plain f => call_function f actuals
  | Partial f bound => call_function f (bound ++ actuals)
  end.

(** Truth values of the components of an [ArgSpec]. *)
Definition truthy_name (x : option str) : bool :=
  match x with Some s => truthy s | None => false end.
Definition truthy_tuple (x : option (list value)) : bool :=
  match x with Some (_ :: _) => true | _ => false end.

Section WithCollaborators.

(** Modelled from the spec: the goal registry ([pants.goal.goal.Goal]),
    of which the registrar uses the lookup by name; a failure of the
    lookup propagates. *)
Variable Goal : Type.
Variable by_name : str -> result Goal.

(** Modelled from the spec: the task base type
    ([pants.backend.core.tasks.task.Task]).  [TaskClass] are its
    subclasses defined elsewhere; [Task__init__] is the base initialiser,
    which leaves the shared execution context in [self.context]. *)
Variable TaskClass : Type.
Variable Task__init__ : list value -> list (str * value) -> result value.

(** An instance of the generated adapter class. *)
Record FuncTask : Type := mkFuncTask {
  context : value;
  action : Callable
}.

(** [FuncTask.__init__(self, *args, **kwargs)], for the [action] the
    class closes over.  Inside the method, [args] is the method's own
    parameter. *)
Definition FuncTask__init__ (action : PyFunction)
    (args : list value) (kwargs : list (str * value)) : result FuncTask :=
  match Task__init__ args kwargs with
  | Raise e => Raise e
  | Return context =>
    if bool_decide (args = []) then
      Return (mkFuncTask context (Plain action))
    else if bool_decide (length args = 1%nat) then
      Return (mkFuncTask context (Partial action [context]))
    else Raise (AssertionError (u "Unexpected fallthrough"))
  end.

(** [FuncTask.execute(self)] *)
Definition execute (self : FuncTask) : result value :=
  match call (action self) [] with
  | Return _ => Return VNone
  | Raise e => Raise e
  end.

(** The [action] argument of the registrar and the class it ends up with. *)
Inductive Action : Type :=
  | TaskSubclass (t : TaskClass)
  | Function (f : PyFunction).

Inductive TaskType : Type :=
  | Given (t : TaskClass)
  | FuncTaskFor (action : PyFunction).

Record TaskRegistrar : Type := mkTaskRegistrar {
  serialize : bool;
  name : str;
  dependencies : list Goal;
  _task : TaskType
}.

(** [[Goal.by_name(d) for d in dependencies]] *)
Fixpoint resolve_all (ds : list str) : result (list Goal) :=
  match ds with
  | [] => Return []
  | d :: r =>
    match by_name d with
    | Raise e => Raise e
    | Return g =>
      match resolve_all r with
      | Raise e => Raise e
      | Return gs => Return (g :: gs)
      end
    end
  end.

(** The choice of [self._task], lines 29 to 53. *)
Definition select_task (action : Action) : result TaskType :=
  match action with
  | TaskSubclass t => Return (Given t)
  | Function f =>
    let a := argspec f in
    if truthy_name (varargs a) || truthy_name (keywords a)
       || truthy_tuple (defaults a) then
      Raise (GoalError
        (u "Invalid action supplied, cannot accept varargs, keywords or defaults"))
    else if (1 <? length (args a))%nat then
      Raise (GoalError
        (u "Invalid action supplied, must accept either no args or else a single Context object"))
    else Return (FuncTaskFor f)
  end.

(** [TaskRegistrar.__init__(self, name, action, dependencies=None,
    serialize=True)] *)
Definition TaskRegistrar__init__ (name : str) (action : Action)
    (dependencies : option (list str)) (serialize : bool)
    : result TaskRegistrar :=
  match (match dependencies with
         | Some (d :: ds) => resolve_all (d :: ds)
         | _ => Return []
         end) with
  | Raise e => Raise e
  | Return deps =>
    match select_task action with
    | Raise e => Raise e
    | Return t => Return (mkTaskRegistrar serialize name deps t)
    end
  end.

Definition task_type (self : TaskRegistrar) : TaskType := _task self.

End WithCollaborators.

Arguments FuncTask__init__ Task__init__ action args kwargs : assert.
Arguments TaskRegistrar__init__ {Goal} by_name {TaskClass} name action dependencies serialize.
Arguments select_task {TaskClass} action.
Arguments resolve_all {Goal} by_name ds.
Arguments Function {TaskClass} f.
Arguments TaskSubclass {TaskClass} t.
Arguments FuncTaskFor {TaskClass} action.
Arguments Given {TaskClass} t.
Arguments _task {Goal TaskClass} _.
Arguments dependencies {Goal TaskClass} _.
Arguments name {Goal TaskClass} _.
Arguments serialize {Goal TaskClass} _.
Arguments task_type {Goal TaskClass} self.

End task_registrar.

(* ===================================================================== *)
(** ** Vocabulary of the specification                                    *)
(* ===================================================================== *)

Module Spec.
Import Py pathlib build_environment.

(** [p] occurs in [s] as a contiguous run. *)
Definition substring (p s : str) : Prop := ∃ pre post, s = pre ++ p ++ post.

(** [p] lies under [q]: same root, and the names of [q] lead those of [p]. *)
Definition lies_under (p q : PurePath) : Prop :=
  root p = root q ∧ ∃ rest, names p = names q ++ rest.

(** The files a git listing reports: one per line of its cleansed output. *)
Definition reported_files (listing : str) : list str := splitlines listing.

(** The command line of repository discovery, as [get_git] issues it. *)
Definition discovery_cmd : list str :=
  [u "git"; u "rev-parse"; u "--show-toplevel"].

(** How often discovery was handed to [subprocess] so far. *)
Definition discoveries {os : OS} (s : State os) : nat :=
  length (List.filter (λ c, bool_decide (c = discovery_cmd)) (spawned s)).

(** [n] successive calls of [get_git]: their outcomes and the final state. *)
Fixpoint repeat_get_git {os : OS} (n : nat) (s : State os)
    : list (result GitSlot) * State os :=
  match n with
  | O => ([], s)
  | S n' =>
    let '(r, s') := get_git s in
    let '(rs, s'') := repeat_get_git n' s' in
    (r :: rs, s'')
  end.

(** The state [get_git] leaves when discovery ended in the VCS error [e]:
    the slot is absent and the condition is logged. *)
Definition absent_after {os : OS} (e : exn) (s1 : State os) : State os :=
  mkState (world s1) (Cached None)
          (log s1 ++ [(INFO, NoRepository (os_getcwd os (world s1)) e)])
          (spawned s1).

(** The state [get_git] leaves when discovery found [git] on [branch]. *)
Definition resolved_after {os : OS} (git : Git) (branch : option str)
    (s2 : State os) : State os :=
  mkState (world s2) (Cached (Some git))
          (log s2 ++ [(DEBUG, Detected (worktree git) branch)])
          (spawned s2).

(** The three marker files of containment detection. *)
Definition dockerenv : PurePath := parse (u "/.dockerenv").
Definition containerenv : PurePath := parse (u "/run/.containerenv").
Definition cgroup : PurePath := parse (u "/proc/self/cgroup").

(** The debug record [_log_call] leaves for a command line. *)
Definition executing (cmd : list str) : Level * LogMsg :=
  (DEBUG, Text (u "Executing: " ++ join (u " ") cmd)).

(** The process state after a logged git command line ran and left the
    world [w]. *)
Definition after_run {os : OS} (cmd : list str) (w : World os)
    (s : State os) : State os :=
  mkState w (_Git s) (log s ++ [executing cmd]) (spawned s ++ [cmd]).

(** The generated failure message. *)
Definition exit_code_message (cmd : list str) (n : Z) : str :=
  join (u " ") cmd ++ u " failed with exit code " ++ str_of_int n.

(** The two mutations of the facade, with the arguments they hand to git. *)
Inductive Mutation : Type :=
  | Commit (message : str)
  | Add (paths : list PurePath).

Definition mutation_args (op : Mutation) : list str :=
  match op with
  | Commit message => [u "commit"; u "--all"; u "--message"; message]
  | Add paths => u "add" :: map to_str paths
  end.

Definition mutate {os : OS} (self : Git) (op : Mutation) : M os unit :=
  match op with
  | Commit message => commit self message
  | Add paths => add self paths
  end.

(** The command line of [mount] and its subprocess step (the first
    statement of its body). *)
Definition mount_cmd (binary : option PathLike) : list str :=
  [str_of (default (PStr (u "git")) binary); u "rev-parse"; u "--show-toplevel"].

Definition discovery_process {os : OS} (subdir binary : option PathLike)
    : M os (Z * bytes * bytes) :=
  match subdir with
  | Some d => if truthy_path d then pushd (str_of d) (_invoke (mount_cmd binary))
              else _invoke (mount_cmd binary)
  | None => _invoke (mount_cmd binary)
  end.

(** The handle direct construction yields for a worktree given as text. *)
Definition handle_at {os : OS} (text : str) (w : World os) : Git :=
  let wt := Path_resolve os (parse text) w in
  mkGit wt (truediv wt (u ".git")) (u "git").

(** The arguments of the three listings of [changed_files] and of the
    listing of [changes_in]. *)
Definition uncommitted_args (rel : PurePath) : list str :=
  [u "diff"; u "--name-only"; u "HEAD"; u "--"; to_str rel].
Definition committed_args (from_commit : str) (rel : PurePath) : list str :=
  [u "diff"; u "--name-only"; from_commit ++ u "...HEAD"; u "--"; to_str rel].
Definition untracked_args (rel : PurePath) : list str :=
  [u "ls-files"; u "--other"; u "--exclude-standard"; u "--full-name";
   u "--"; to_str rel].
Definition diff_tree_args (diffspec : str) : list str :=
  [u "diff-tree"; u "--no-commit-id"; u "--name-only"; u "-r"; diffspec].

(** The listings [changed_files] runs before it makes paths relative:
    the cleansed output of the uncommitted diff, of the three-dot diff when
    [from_commit] is true, and of the untracked listing when asked for. *)
Definition listings {os : OS} (self : Git) (from_commit : option str)
    (include_untracked : bool) (rel : PurePath)
    : M os (str * option str * option str) :=
  bind (_check_output self (uncommitted_args rel)) (λ o1,
  bind (match from_commit with
        | Some c => if truthy c
                    then map_M Some (_check_output self (committed_args c rel))
                    else ret None
        | None => ret None
        end) (λ o2,
  bind (if include_untracked
        then map_M Some (_check_output self (untracked_args rel))
        else ret None) (λ o3,
  ret (o1, o2, o3)))).

(** The directory paths are made relative to. *)
Definition base_of (self : Git) (rel : option PathLike) : PurePath :=
  match rel with Some r => PurePath_of r | None => worktree self end.

(** The set the specification describes for [changed_files]: the files
    reported by each listing that was run, each made relative to the base. *)
Definition relativized (self : Git) (base : PurePath) (fs : list str)
    : result (gset str) :=
  comprehension (λ f, _fix_git_relative_path self f (PPath base)) fs.

Definition changed_files_spec (self : Git) (base : PurePath)
    (uncommitted : str) (committed untracked : option str)
    : result (gset str) :=
  relativized self base
    (reported_files uncommitted
     ++ from_option reported_files [] committed
     ++ from_option reported_files [] untracked).

(** A listing of plain names: no line is empty and no line holds a
    whitespace character. *)
Definition plain_name (l : str) : Prop :=
  l ≠ [] ∧ Forall (λ c, isspace c = false) l.
Definition plain_lines (listing : str) : Prop :=
  Forall plain_name (splitlines listing).

End Spec.

(* ===================================================================== *)
(** ** Vocabulary for the behaviour of the facade                         *)
(* ===================================================================== *)

Module Behaviour.
Import Py pathlib build_environment Spec.

(** The message [_invoke] gives the VCS error it raises when the binary
    cannot be launched; [repr] is the [repr] of the [OSError]. *)
Definition launch_failure_message (cmd : list str) (repr : str) : str :=
  u "Failed to execute command " ++ join (u " ") cmd ++ u ": " ++ repr.

(** A path component that [PurePath] keeps as it is: not empty, not the
    single dot, and without a slash. *)
Definition clean_name (n : str) : Prop := n ≠ [] ∧ n ≠ u "." ∧ sep ∉ n.

#[global] Instance clean_name_dec (n : str) : Decision (clean_name n).
Proof. unfold clean_name. apply _. Defined.

(** The process for [cmd] exits with zero and prints nothing but
    whitespace; [w] is the world it leaves. *)
Definition prints_blank {os : OS} (cmd : list str) (s : State os)
    (w : World os) : Prop :=
  ∃ out err msg text,
    Popen_communicate os cmd (world s) = (Exited 0 out err, w)
    ∧ bytes_decode err = Return msg
    ∧ bytes_decode out = Return text
    ∧ Forall (λ c, isspace c = true) text.

(** The public operations of a [Git] handle. *)
Inductive Operation : Type :=
  | CommitId
  | BranchName
  | ChangedFiles (from_commit : option str) (include_untracked : bool)
                 (rel : option PathLike)
  | ChangesIn (diffspec : str) (rel : option PathLike)
  | Mutate (op : Mutation).

(** The operations that read git's output ([_check_output]), as opposed to
    [commit] and [add] ([_check_call]). *)
Definition is_query (op : Operation) : bool :=
  match op with Mutate _ => false | _ => true end.

Definition discard {os : OS} {A} (m : M os A) : M os unit :=
  map_M (λ _, tt) m.

(** Running an operation for its effect and its success or failure. *)
Definition perform {os : OS} (self : Git) (op : Operation) : M os unit :=
  match op with
  | CommitId => discard (commit_id self)
  | BranchName => discard (branch_name self)
  | ChangedFiles c i r => discard (changed_files self c i r)
  | ChangesIn d r => discard (changes_in self d r)
  | Mutate m => mutate self m
  end.

(** The git arguments an operation issues when nothing fails, in order. *)
Definition planned_listings (from_commit : option str)
    (include_untracked : bool) (base : PurePath) : list (list str) :=
  [uncommitted_args base]
  ++ match from_commit with
     | Some c => if truthy c then [committed_args c base] else []
     | None => []
     end
  ++ (if include_untracked then [untracked_args base] else []).

(** The command lines of an operation: each is the command line of the
    handle followed by the arguments. *)
Definition planned (self : Git) (op : Operation) : list (list str) :=
  map (_create_git_cmdline self)
    match op with
    | CommitId => [[u "rev-parse"; u "HEAD"]]
    | BranchName => [[u "rev-parse"; u "--abbrev-ref"; u "HEAD"]]
    | ChangedFiles c i r => planned_listings c i (base_of self r)
    | ChangesIn d _ => [diff_tree_args d]
    | Mutate m => [mutation_args m]
    end.


End Behaviour.

(* ===================================================================== *)
(** ** Concrete operating systems used in examples                        *)
(* ===================================================================== *)

Module Fixtures.
Import Py pathlib build_environment.

(** A machine without symbolic links whose world is just the current
    directory; processes and files answer by fixed tables. *)
Definition machine (file_exists : PurePath -> bool)
    (read : PurePath -> result bytes)
    (popen : list str -> Completed) (run : list str -> Called) : OS :=
  {| World := str;
     os_getcwd := λ w, w;
     os_chdir := λ d w, inr (to_str (truediv (parse w) d));
     Path_resolve := λ p w, if truthy (root p) then p
                            else mkPath (root (parse w)) (names (parse w) ++ names p);
     Path_exists := λ p _, file_exists p;
     Path_read_bytes := λ p _, read p;
     Popen_communicate := λ cmd w, (popen cmd, w);
     subprocess_call := λ cmd w, (run cmd, w) |}.

Definition boot (os : OS) (w : World os) : State os := mkState w NO [] [].

Definition no_file : PurePath -> bool := λ _, false.
Definition no_read : PurePath -> result bytes := λ _, Raise (OSError (u "ENOENT")).
Definition no_popen : list str -> Completed := λ _, LaunchFailed (u "ENOENT").
Definition no_run : list str -> Called := λ _, CallFailed (u "ENOENT").

(** A host where only the cgroup descriptor betrays the container. *)
Definition docker_host : OS :=
  machine (λ p, bool_decide (p = Spec.cgroup))
          (λ p, if bool_decide (p = Spec.cgroup)
                then Return (b "12:memory:/docker/0a1b2c")
                else Raise (OSError (u "ENOENT")))
          no_popen no_run.

Definition LF : bytes := [x0a].

(** A checkout at [/home/user/project], on branch [main]. *)
Definition project : Git :=
  mkGit (parse (u "/home/user/project")) (parse (u "/home/user/project/.git"))
        (u "git").

Definition branch_query : list str :=
  _create_git_cmdline project [u "rev-parse"; u "--abbrev-ref"; u "HEAD"].

Definition not_a_repository : bytes :=
  b "fatal: not a git repository (or any of the parent directories): .git" ++ LF.

Definition project_host (branch : string) : OS :=
  machine no_file no_read
    (λ cmd,
       if bool_decide (cmd = Spec.discovery_cmd)
       then Exited 0 (b "/home/user/project" ++ LF) []
       else if bool_decide (cmd = branch_query)
       then Exited 0 (b branch ++ LF) []
       else Exited 128 [] not_a_repository)
    (λ cmd,
       if bool_decide (cmd = _create_git_cmdline project
                                (Spec.mutation_args (Spec.Commit (u "wip"))))
       then CallExited 1
       else CallExited 0).

(** A directory outside every repository. *)
Definition outside_host : OS :=
  machine no_file no_read (λ _, Exited 128 [] not_a_repository) no_run.

(** The same directory under a Latin-1 locale: git words its complaint in
    French, and the accented letters are single bytes above 127. *)
Definition complaint_latin1 : bytes :=
  b "fatal : ni ceci ni aucun de ses r" ++ [xe9]
  ++ b "pertoires parents n'est un d" ++ [xe9] ++ b "p" ++ [xf4]
  ++ b "t git : .git" ++ LF.

Definition latin1_host : OS :=
  machine no_file no_read (λ _, Exited 128 [] complaint_latin1) no_run.

(** A discovery binary that answers with a path relative to the current
    directory. *)
Definition relative_host : OS :=
  machine no_file no_read (λ _, Exited 0 (b "project" ++ LF) []) no_run.

(** A successful discovery that also writes a Latin-1 warning to stderr. *)
Definition warning_host : OS :=
  machine no_file no_read
    (λ _, Exited 0 (b "/home/user/project" ++ LF)
                 (b "warning: r" ++ [xe9] ++ b "f" ++ [xe9] ++ b "rence ambigu" ++ [xeb] ++ LF))
    no_run.

(** A checkout at [/repo] where the branch added a file whose name holds
    a blank. *)
Definition repo : Git :=
  mkGit (parse (u "/repo")) (parse (u "/repo/.git")) (u "git").

Definition blank_names_host : OS :=
  machine no_file no_read
    (λ cmd,
       if bool_decide (cmd = _create_git_cmdline repo
                               (Spec.uncommitted_args (parse (u "/repo"))))
       then Exited 0 (b "build.gradle" ++ LF) []
       else if bool_decide (cmd = _create_git_cmdline repo
                               (Spec.committed_args (u "main") (parse (u "/repo"))))
       then Exited 0 (b "docs/release notes.md" ++ LF) []
       else Exited 128 [] not_a_repository)
    no_run.

(** A checkout at [/repo] whose last commit touched a file inside and a
    file outside [/repo/src]. *)
Definition two_dirs_host : OS :=
  machine no_file no_read
    (λ cmd,
       if bool_decide (cmd = _create_git_cmdline repo (Spec.diff_tree_args (u "HEAD")))
       then Exited 0 (b "src/app.py" ++ LF ++ b "README.md" ++ LF) []
       else if bool_decide (cmd = _create_git_cmdline repo
                               (Spec.uncommitted_args (parse (u "/repo/src"))))
       then Exited 0 (b "src/app.py" ++ LF) []
       else Exited 128 [] not_a_repository)
    no_run.

(** A checkout at [/repo] where the branch added two files with plain
    names. *)
Definition plain_names_host : OS :=
  machine no_file no_read
    (λ cmd,
       if bool_decide (cmd = _create_git_cmdline repo
                               (Spec.uncommitted_args (parse (u "/repo"))))
       then Exited 0 (b "build.gradle" ++ LF) []
       else if bool_decide (cmd = _create_git_cmdline repo
                               (Spec.committed_args (u "main") (parse (u "/repo"))))
       then Exited 0 (b "docs/notes.md" ++ LF ++ b "src/app.py" ++ LF) []
       else Exited 128 [] not_a_repository)
    no_run.

End Fixtures.

Module Hosts.
Import Py pathlib build_environment Fixtures.

(** A machine on which no binary can be launched. *)
Definition bare_host : OS := machine no_file no_read no_popen no_run.

(** A checkout without changes: every git query prints an empty line. *)
Definition clean_host : OS :=
  machine no_file no_read (λ _, Exited 0 LF []) no_run.

End Hosts.

(* ===================================================================== *)
(** ** Vocabulary and examples for the task registrar                     *)
(* ===================================================================== *)

Module TaskSpec.
Import Py task_registrar.

(** What [inspect.getargspec] guarantees of its result: a starred
    parameter has a name, and [defaults] is [None] rather than an empty
    tuple. *)
Definition getargspec_wf (a : ArgSpec) : Prop :=
  varargs a ≠ Some [] ∧ keywords a ≠ Some [] ∧ defaults a ≠ Some [].

(** The signature declares variable positional arguments, variable
    keyword arguments, default values, or more than one fixed argument. *)
Definition declares_too_much (a : ArgSpec) : Prop :=
  is_Some (varargs a) ∨ is_Some (keywords a) ∨ is_Some (defaults a)
  ∨ 1 < length (args a).

(** Every named dependency is known to the goal registry. *)
Definition dependencies_resolve {Goal} (by_name : str → result Goal)
    (deps : option (list str)) : Prop :=
  ∀ ds, deps = Some ds → ∃ gs, resolve_all by_name ds = Return gs.

End TaskSpec.

Module TaskFixtures.
Import Py task_registrar.

(** [def thunk(): pass] and [def uses_context(context): pass] *)
Definition thunk : PyFunction :=
  mkFunction (mkArgSpec [] None None None) (λ _, Return VNone).
Definition uses_context : PyFunction :=
  mkFunction (mkArgSpec [u "context"] None None None) (λ _, Return VNone).

Definition the_context : value := VStr (u "context object").
Definition the_workdir : value := VStr (u "/tmp/workdir").

(** A task base class that takes the context as its first argument,
    positional or by keyword. *)
Definition base_init (args : list value) (kwargs : list (str * value))
    : result value :=
  match args, kwargs with
  | c :: _, _ => Return c
  | [], (_, c) :: _ => Return c
  | [], [] => Raise TypeError
  end.

(** A registry in which every name is a goal. *)
Definition registry (n : str) : result str := Return n.

End TaskFixtures.

Module TaskBehaviour.
Import Py task_registrar.

(** The two messages of the invalid-action error. *)
Definition invalid_signature : str :=
  u "Invalid action supplied, cannot accept varargs, keywords or defaults".
Definition invalid_arity : str :=
  u "Invalid action supplied, must accept either no args or else a single Context object".

(** The names the comprehension over [dependencies] looks up: none for
    [None] and for the empty list. *)
Definition named (deps : option (list str)) : list str := default [] deps.

Definition resolves_to {Goal} (by_name : str → result Goal) (d : str)
    (g : Goal) : Prop :=
  by_name d = Return g.

(** The lookup of the names [ds], in order, first fails with [e]. *)
Definition first_failure {Goal} (by_name : str → result Goal)
    (ds : list str) (e : exn) : Prop :=
  ∃ pre d post, ds = pre ++ d :: post
    ∧ Forall (λ x, ∃ g, by_name x = Return g) pre
    ∧ by_name d = Raise e.

(** The error a signature is refused with: the first message when it
    declares a starred parameter or defaults, the second when it declares
    none of these but more than one fixed argument. *)
Definition rejected_signature (a : ArgSpec) (e : exn) : Prop :=
  (e = GoalError invalid_signature
   ∧ (is_Some (varargs a) ∨ is_Some (keywords a) ∨ is_Some (defaults a)))
  ∨ (e = GoalError invalid_arity
     ∧ varargs a = None ∧ keywords a = None ∧ defaults a = None
     ∧ 1 < length (args a)).

End TaskBehaviour.

Module TaskExamples.
Import Py task_registrar.

(** A registry that knows the goals [resolve] and [gen] only. *)
Definition small_registry (n : str) : result str :=
  if bool_decide (n = u "resolve") || bool_decide (n = u "gen") then Return n
  else Raise (GoalError (u "unknown goal")).

(** A function with a starred parameter [targets], and a one-argument
    function that returns a value. *)
Definition star : PyFunction :=
  mkFunction (mkArgSpec [] (Some (u "targets")) None None) (λ _, Return VNone).

End TaskExamples.

(* ===================================================================== *)
(** ** Facts about the Python layer                                       *)
(* ===================================================================== *)

Module PyFacts.
Import Py pathlib Spec.

Lemma startswith_spec (p s : str) :
  startswith p s = true ↔ ∃ post, s = p ++ post.
Proof.
  revert s. induction p as [|a p IH]; intros s; simpl.
  - split; [intros _; by exists s | done].
  - destruct s as [|c s]; simpl.
    + split; [done | intros [post Hpost]; discriminate].
    + rewrite andb_true_iff, N.eqb_eq, IH. split.
      * intros [-> [post ->]]. by exists post.
      * intros [post [= -> ->]]. eauto.
Qed.

Lemma contains_spec (p s : str) : contains p s = true ↔ substring p s.
Proof.
  unfold substring. induction s as [|c s IH]; simpl.
  - rewrite orb_false_r, startswith_spec. split.
    + intros [post ->]. by exists [], post.
    + intros [pre [post Heq]]. destruct pre; [by exists post|discriminate].
  - rewrite orb_true_iff, startswith_spec, IH. split.
    + intros [[post ->] | [pre [post ->]]].
      * by exists [], post.
      * by exists (c :: pre), post.
    + intros [[|c' pre] [post Heq]]; simpl in Heq.
      * left. by exists post.
      * right. injection Heq as -> ->. by exists pre, post.
Qed.

Lemma strip_prefix_spec (pre l : list str) :
  ∀ rest, strip_prefix pre l = Some rest ↔ l = pre ++ rest.
Proof.
  revert l. induction pre as [|x pre IH]; intros l rest; simpl.
  - split; [by intros [= ->] | by intros ->].
  - destruct l as [|y l]; [split; discriminate|].
    case_bool_decide as Hxy.
    + subst. rewrite IH. split; [by intros -> | by intros [= ->]].
    + split; [discriminate | intros [= -> ->]; done].
Qed.

Lemma relative_to_lies_under (p q : PurePath) :
  (∃ r, relative_to p q = Return r) ↔ lies_under p q.
Proof.
  unfold relative_to, lies_under. case_bool_decide as Hroot.
  - destruct (strip_prefix (names q) (names p)) as [rest|] eqn:Hs.
    + apply strip_prefix_spec in Hs. split; eauto.
    + split; [intros [r Hr]; discriminate|].
      intros [_ [rest Hrest]]. apply strip_prefix_spec in Hrest. congruence.
  - split; [intros [r Hr]; discriminate | intros [? _]; done].
Qed.

Lemma relative_to_error (p q : PurePath) (e : exn) :
  relative_to p q = Raise e → e = ValueError.
Proof.
  unfold relative_to. case_bool_decide; [|by intros [= <-]].
  destruct (strip_prefix _ _); [discriminate | by intros [= <-]].
Qed.

Lemma islinebreak_isspace (c : N) : islinebreak c = true → isspace c = true.
Proof.
  unfold islinebreak, isspace, between.
  rewrite !orb_true_iff, !andb_true_iff, !N.leb_le, !N.eqb_eq. lia.
Qed.

(** A line under construction ends up at the head of the result. *)
Lemma splitlines_from_head (s cur : str) :
  cur ≠ [] → ∃ t rest, splitlines_from cur s = (rev cur ++ t) :: rest.
Proof.
  revert cur. induction s as [|c r IH]; intros cur Hcur; cbn [splitlines_from].
  - destruct cur; [done|]. exists [], []. by rewrite app_nil_r.
  - destruct (c =? 13)%N.
    + destruct r as [|c' r']; [|destruct (c' =? 10)%N];
        eexists [], _; by rewrite app_nil_r.
    + destruct (islinebreak c).
      * eexists [], _. by rewrite app_nil_r.
      * destruct (IH (c :: cur)) as (t & rest & ->); [done|].
        exists (c :: t), rest. cbn [rev]. by rewrite <- app_assoc.
Qed.

(** On a listing of plain names, cutting at whitespace and cutting at
    line ends agree.  The induction is on a bound of the length, since a
    CR LF pair takes two characters at once. *)
Lemma split_from_splitlines_from (n : nat) :
  ∀ (s cur : str), length s ≤ n →
    Forall plain_name (splitlines_from cur s) →
    split_from cur s = splitlines_from cur s.
Proof.
  induction n as [|n IH]; intros s cur Hlen Hplain.
  - destruct s; [done|]. cbn in Hlen. lia.
  - destruct s as [|c r]; [done|]. cbn [length] in Hlen.
    cbn [split_from splitlines_from] in *.
    assert (∀ rest, Forall plain_name (rev cur :: rest) → cur ≠ []) as Hne.
    { intros rest Hf. apply Forall_cons in Hf as [[Hnil _] _].
      intros ->. by apply Hnil. }
    destruct (c =? 13)%N eqn:Hcr.
    + apply N.eqb_eq in Hcr as ->. change (isspace 13) with true. cbv iota.
      destruct r as [|c' r'].
      * pose proof (Hne _ Hplain). by destruct cur.
      * destruct (c' =? 10)%N eqn:Hlf.
        -- apply N.eqb_eq in Hlf as ->. pose proof (Hne _ Hplain).
           apply Forall_cons in Hplain as [_ Hrest].
           destruct cur; [done|]. f_equal. cbn [split_from].
           change (isspace 10) with true. cbv iota.
           apply IH; [simpl in Hlen; lia|exact Hrest].
        -- pose proof (Hne _ Hplain).
           apply Forall_cons in Hplain as [_ Hrest].
           destruct cur; [done|]. f_equal. apply IH; [lia|done].
    + destruct (islinebreak c) eqn:Hlb.
      * rewrite (islinebreak_isspace c Hlb). pose proof (Hne _ Hplain).
        apply Forall_cons in Hplain as [_ Hrest].
        destruct cur; [done|]. f_equal. apply IH; [lia|done].
      * assert (isspace c = false) as ->.
        { destruct (splitlines_from_head r (c :: cur)) as (t & rest & Heq); [done|].
          rewrite Heq in Hplain. apply Forall_cons in Hplain as [[_ Hchars] _].
          rewrite Forall_app in Hchars. destruct Hchars as [Hchars _].
          cbn [rev] in Hchars. rewrite Forall_app in Hchars.
          destruct Hchars as [_ Hc]. by apply (Forall_inv Hc). }
        apply IH; [lia|done].
Qed.

Lemma split_plain_lines (o : str) : plain_lines o → split o = splitlines o.
Proof. intros H. by apply (split_from_splitlines_from (length o)). Qed.

End PyFacts.

(* ===================================================================== *)
(** ** Facts about [build_environment]                                    *)
(* ===================================================================== *)

Module BuildEnvironmentFacts.
Import Py pathlib build_environment Spec PyFacts Fixtures.

(** *** Running the facade step by step *)

Section Evaluation.
Context {os : OS}.
Implicit Types (s : State os) (self : Git) (cmd args : list str).

Lemma _check_result_eval cmd (n : Z) (msg : option str) s :
  _check_result cmd n msg s =
  (if bool_decide (n = 0%Z) then Return tt
   else Raise (GitException (str_or msg (exit_code_message cmd n))), s).
Proof.
  unfold _check_result. by case_bool_decide as H1; case_bool_decide as H2.
Qed.

Lemma _check_call_exited self args s (n : Z) (w : World os) :
  let cmd := _create_git_cmdline self args in
  subprocess_call os cmd (world s) = (CallExited n, w) →
  _check_call self args s =
  (if bool_decide (n = 0%Z) then Return tt
   else Raise (GitException (exit_code_message cmd n)), after_run cmd w s).
Proof.
  intros cmd Hcall.
  unfold _check_call, bind, _log_call, logger, modify, call_process.
  fold cmd. cbn [add_spawned add_log world set_world].
  rewrite Hcall. by rewrite _check_result_eval.
Qed.

Lemma _check_output_exited self args s (rc : Z) (out err : bytes) (w : World os) :
  let cmd := _create_git_cmdline self args in
  Popen_communicate os cmd (world s) = (Exited rc out err, w) →
  _check_output self args s =
  (match bytes_decode err with
   | Raise e => Raise e
   | Return msg =>
     if bool_decide (rc = 0%Z) then
       match bytes_decode out with
       | Raise e => Raise e
       | Return o => Return (strip o)
       end
     else Raise (GitException (str_or (Some msg) (exit_code_message cmd rc)))
   end, after_run cmd w s).
Proof.
  intros cmd Hp. unfold _check_output, bind, _log_call, logger, modify, _invoke.
  fold cmd. cbn [add_spawned add_log world set_world].
  rewrite Hp. unfold lift. destruct (bytes_decode err) as [e|msg]; [done|].
  rewrite _check_result_eval. case_bool_decide; [|done].
  unfold _cleanse, map_M, bind, lift, ret. by destruct (bytes_decode out).
Qed.

(** Direct construction reads the world and nothing else. *)
Lemma Git__init__eval (wt gd : option PathLike) (binary : option str) s :
  Git__init__ wt gd binary s =
  (let w := world s in
   let start := match wt with
                | Some x => if truthy_path x then PurePath_of x else parse (os_getcwd os w)
                | None => parse (os_getcwd os w)
                end in
   let top := Path_resolve os start w in
   Return (mkGit top
             match gd with
             | Some x => if truthy_path x then Path_resolve os (PurePath_of x) w
                         else truediv top (u ".git")
             | None => truediv top (u ".git")
             end
             (default (u "git") binary)), s).
Proof.
  unfold Git__init__, bind, resolve, get, ret, map_M, bind, getcwd, get, ret.
  destruct wt as [x|]; [destruct (truthy_path x)|];
    (destruct gd as [y|]; [destruct (truthy_path y)|]); reflexivity.
Qed.

Lemma mount_unfold (subdir binary : option PathLike) s :
  mount subdir binary s =
  match discovery_process subdir binary s with
  | (Raise e, s1) => (Raise e, s1)
  | (Return (rc, out, err), s1) =>
    match bytes_decode err with
    | Raise e => (Raise e, s1)
    | Return msg =>
      if bool_decide (rc = 0%Z) then
        match bytes_decode out with
        | Raise e => (Raise e, s1)
        | Return text => (Return (handle_at (strip text) (world s1)), s1)
        end
      else (Raise (GitException (str_or (Some msg)
                     (exit_code_message (mount_cmd binary) rc))), s1)
    end
  end.
Proof.
  unfold mount, discovery_process. fold (mount_cmd binary). unfold bind at 1.
  set (run := match subdir with Some _ => _ | None => _ end).
  destruct (run s) as [[e|[[rc out] err]] s1]; [done|].
  unfold bind, lift. destruct (bytes_decode err) as [e|msg]; [done|].
  rewrite _check_result_eval. case_bool_decide; [|done].
  unfold _cleanse, map_M, bind, lift, ret.
  destruct (bytes_decode out) as [e|text]; [done|].
  by rewrite Git__init__eval.
Qed.


Lemma _invoke_frame cmd s :
  spawned (snd (_invoke cmd s)) = spawned s ++ [cmd]
  ∧ _Git (snd (_invoke cmd s)) = _Git s
  ∧ log (snd (_invoke cmd s)) = log s.
Proof.
  unfold _invoke. cbn [add_spawned world].
  by destruct (Popen_communicate os cmd (world s)) as [[r|rc out err] w].
Qed.

Lemma _check_output_frame self args s :
  spawned (snd (_check_output self args s))
    = spawned s ++ [_create_git_cmdline self args]
  ∧ _Git (snd (_check_output self args s)) = _Git s.
Proof.
  destruct (Popen_communicate os (_create_git_cmdline self args) (world s))
    as [[r|rc out err] w] eqn:Hp.
  - unfold _check_output, bind, _log_call, logger, modify, _invoke.
    cbn [add_spawned add_log world set_world]. by rewrite Hp.
  - by rewrite (_check_output_exited _ _ _ _ _ _ _ Hp).
Qed.

Lemma mount_auto_frame s :
  spawned (snd (mount None None s)) = spawned s ++ [discovery_cmd]
  ∧ _Git (snd (mount None None s)) = _Git s.
Proof.
  rewrite mount_unfold. unfold discovery_process.
  change (mount_cmd None) with discovery_cmd.
  destruct (_invoke_frame discovery_cmd s) as (Hsp & Hg & _).
  destruct (_invoke discovery_cmd s) as [[e|[[rc out] err]] s1]; [done|].
  destruct (bytes_decode err); [done|]. case_bool_decide; [|done].
  by destruct (bytes_decode out).
Qed.

Lemma discoveries_discovery s s1 :
  spawned s1 = spawned s ++ [discovery_cmd] → discoveries s1 = S (discoveries s).
Proof.
  unfold discoveries. intros ->. rewrite List.filter_app, length_app.
  cbn [List.filter]. rewrite bool_decide_true by done. cbn [length]. lia.
Qed.

Lemma discoveries_query self (a1 a2 a3 : str) s s1 :
  spawned s1 = spawned s ++ [_create_git_cmdline self [a1; a2; a3]] →
  discoveries s1 = discoveries s.
Proof.
  unfold discoveries. intros ->. rewrite List.filter_app, length_app.
  cbn [List.filter].
  rewrite bool_decide_false by (intros H; by apply (f_equal length) in H).
  cbn [length]. lia.
Qed.

Lemma get_git_cached (g : option Git) s :
  _Git s = Cached g → get_git s = (Return (Cached g), s).
Proof. intros H. unfold get_git, bind, get, ret. by rewrite !H. Qed.

Lemma repeat_get_git_cached (g : option Git) s (n : nat) :
  _Git s = Cached g → repeat_get_git n s = (repeat (Return (Cached g)) n, s).
Proof.
  intros H. induction n as [|n IH]; [done|].
  simpl. by rewrite (get_git_cached g s H), IH.
Qed.

Lemma get_git_first s :
  _Git s = NO →
  get_git s =
  match mount None None s with
  | (Raise e, s1) =>
    if is_GitException e then (Return (Cached None), absent_after e s1)
    else (Raise e, s1)
  | (Return git, s1) =>
    match branch_name git s1 with
    | (Raise e, s2) =>
      if is_GitException e then (Return (Cached None), absent_after e s2)
      else (Raise e, s2)
    | (Return branch, s2) =>
      (Return (Cached (Some git)), resolved_after git branch s2)
    end
  end.
Proof.
  intros H. unfold get_git. unfold bind at 1 2. unfold get at 1. rewrite H.
  unfold try_except. unfold bind at 1.
  destruct (mount None None s) as [[e|git] s1].
  - destruct (is_GitException e); reflexivity.
  - unfold bind at 1. destruct (branch_name git s1) as [[e|branch] s2].
    + destruct (is_GitException e); reflexivity.
    + reflexivity.
Qed.

End Evaluation.

Lemma branch_name_frame {os : OS} (self : Git) (s : State os) :
  _Git (snd (branch_name self s)) = _Git s
  ∧ discoveries (snd (branch_name self s)) = discoveries s.
Proof.
  destruct (_check_output_frame self [u "rev-parse"; u "--abbrev-ref"; u "HEAD"] s)
    as [Hsp Hg].
  unfold branch_name, bind.
  destruct (_check_output self _ s) as [[e|br] s1]; cbn [snd] in *;
    (split; [done | by eapply discoveries_query]).
Qed.

Lemma get_git_first_summary {os : OS} (s s2 : State os) (r : result GitSlot) :
  _Git s = NO → get_git s = (r, s2) →
  discoveries s2 = S (discoveries s)
  ∧ match r with
    | Return v => (v = Cached None ∨ ∃ git, v = Cached (Some git)) ∧ _Git s2 = v
    | Raise e => is_GitException e = false ∧ _Git s2 = NO
    end.
Proof.
  intros Hno. rewrite (get_git_first s Hno).
  destruct (mount_auto_frame s) as [Hsp1 Hg1].
  destruct (mount None None s) as [[e|git] s1]; cbn [snd] in Hsp1, Hg1.
  - pose proof (discoveries_discovery s s1 Hsp1) as Hd.
    destruct (is_GitException e) eqn:He; intros [= <- <-].
    + split; [done|]. split; [by left|done].
    + split; [done|]. split; [done|congruence].
  - pose proof (discoveries_discovery s s1 Hsp1) as Hd.
    destruct (branch_name_frame git s1) as [Hg2 Hd2].
    destruct (branch_name git s1) as [[e|branch] s2']; cbn [snd] in Hg2, Hd2.
    + destruct (is_GitException e) eqn:He; intros [= <- <-].
      * split; [by rewrite <- Hd, <- Hd2|]. split; [by left|done].
      * split; [congruence|]. split; [done|congruence].
    + intros [= <- <-]. split; [by rewrite <- Hd, <- Hd2|].
      split; [right; by exists git|done].
Qed.

Lemma outside_host_mount :
  mount None None (boot outside_host (u "/tmp"))
  = (Raise (GitException
       (u "fatal: not a git repository (or any of the parent directories): .git" ++ [10%N])),
     mkState (u "/tmp" : World outside_host) NO [] [discovery_cmd]).
Proof. by vm_compute. Qed.

(** *** Making reported paths relative *)

Section Relativization.
Context {os : OS}.
Implicit Types (self : Git) (f : str) (fs : list str).

Lemma fix_relative_path_ok self f (rel : PathLike) :
  (∃ t, _fix_git_relative_path self f rel = Return t)
  ↔ lies_under (truediv (worktree self) f) (PurePath_of rel).
Proof.
  unfold _fix_git_relative_path. rewrite <- relative_to_lies_under.
  destruct (relative_to _ _) as [e|p]; split; intros [t Ht]; try discriminate; eauto.
Qed.

Lemma fix_relative_path_error self f (rel : PathLike) (e : exn) :
  _fix_git_relative_path self f rel = Raise e → e = ValueError.
Proof.
  unfold _fix_git_relative_path.
  destruct (relative_to _ _) as [e'|p] eqn:Hr; [|discriminate].
  intros [= <-]. by eapply relative_to_error.
Qed.

Lemma fix_relative_path_raises self f (rel : PathLike) :
  _fix_git_relative_path self f rel = Raise ValueError
  ↔ ¬ lies_under (truediv (worktree self) f) (PurePath_of rel).
Proof.
  rewrite <- fix_relative_path_ok.
  destruct (_fix_git_relative_path self f rel) as [e|t] eqn:Hf.
  - apply fix_relative_path_error in Hf as ->.
    split; [intros _ [t Ht]; discriminate | done].
  - split; [discriminate | intros Hn; exfalso; apply Hn; eauto].
Qed.

Lemma comprehension_Return (g : str → result str) fs :
  (∀ x, x ∈ fs → ∃ y, g x = Return y) →
  ∃ out : gset str, comprehension g fs = Return out
    ∧ ∀ y, y ∈ out ↔ ∃ x, x ∈ fs ∧ g x = Return y.
Proof.
  induction fs as [|x fs IH]; intros Hall.
  - exists ∅. split; [done|]. intros y. split; [set_solver|].
    intros (x & Hx & _). by apply elem_of_nil in Hx.
  - destruct (Hall x) as [y Hy]; [by left|].
    destruct IH as (out & Hout & Hmem); [intros x' Hx'; apply Hall; by right|].
    exists ({[ y ]} ∪ out). cbn [comprehension]. rewrite Hy, Hout.
    split; [done|]. intros y'. rewrite elem_of_union, elem_of_singleton, Hmem.
    split.
    + intros [->|(x' & Hx' & Hgx')]; [exists x; split; [by left|done]|].
      exists x'. split; [by right|done].
    + intros (x' & Hx' & Hgx'). apply elem_of_cons in Hx' as [->|Hx'].
      * left. congruence.
      * right. eauto.
Qed.

Lemma comprehension_Raise (g : str → result str) fs :
  (∀ x e, g x = Raise e → e = ValueError) →
  (∃ x, x ∈ fs ∧ ∃ e, g x = Raise e) →
  comprehension g fs = Raise ValueError.
Proof.
  intros Hval. induction fs as [|x fs IH]; intros (x' & Hx' & e & He).
  - by apply elem_of_nil in Hx'.
  - cbn [comprehension]. destruct (g x) as [e0|y] eqn:Hgx.
    + by rewrite (Hval _ _ Hgx).
    + apply elem_of_cons in Hx' as [->|Hx']; [congruence|].
      rewrite IH; [done|]. eauto.
Qed.

(** The comprehension depends on the elements only, not on their order
    or repetitions. *)
Lemma comprehension_ext (g : str → result str) fs fs' :
  (∀ x e, g x = Raise e → e = ValueError) →
  (∀ x, x ∈ fs ↔ x ∈ fs') →
  comprehension g fs = comprehension g fs'.
Proof.
  intros Hval Hsame.
  destruct (decide (Forall (λ x, is_Some (match g x with Return y => Some y | _ => None end)) fs))
    as [Hall|Hex].
  - rewrite Forall_forall in Hall.
    destruct (comprehension_Return g fs) as (o1 & -> & H1).
    { intros x Hx. specialize (Hall x Hx). destruct (g x); [by destruct Hall|eauto]. }
    destruct (comprehension_Return g fs') as (o2 & -> & H2).
    { intros x Hx. apply Hsame in Hx. specialize (Hall x Hx).
      destruct (g x); [by destruct Hall|eauto]. }
    f_equal. apply set_eq. intros y. rewrite H1, H2.
    split; intros (x & Hx & Hg); exists x; (split; [by apply Hsame|done]).
  - apply not_Forall_Exists in Hex; [|apply _].
    apply Exists_exists in Hex as (x & Hx & Hn). cbn in Hn.
    assert (∃ e, g x = Raise e) as [e He].
    { destruct (g x) as [e|y]; [eauto|]. exfalso. apply Hn. eauto. }
    rewrite !comprehension_Raise; try done.
    + exists x. split; [by apply Hsame|eauto].
    + exists x. eauto.
Qed.

Lemma changes_in_eval self (diffspec : str) (rel : option PathLike) (s : State os) :
  changes_in self diffspec rel s =
  match _check_output self (diff_tree_args diffspec) s with
  | (Return out, s1) =>
    (comprehension
       (λ f, _fix_git_relative_path self (strip f) (PPath (base_of self rel)))
       (split out), s1)
  | (Raise e, s1) => (Raise e, s1)
  end.
Proof.
  unfold changes_in, map_M, bind, ret, lift. fold (diff_tree_args diffspec).
  fold (base_of self rel).
  by destruct (_check_output self (diff_tree_args diffspec) s) as [[e|out] s1].
Qed.

Lemma changed_files_eval self (from_commit : option str) (include_untracked : bool)
    (rel : option PathLike) (s : State os) :
  changed_files self from_commit include_untracked rel s =
  match listings self from_commit include_untracked (base_of self rel) s with
  | (Return (o1, o2, o3), s1) =>
    (comprehension
       (λ f, _fix_git_relative_path self f (PPath (base_of self rel)))
       (elements (list_to_set (splitlines o1)
                  ∪ from_option (λ o, list_to_set (split o)) ∅ o2
                  ∪ from_option (λ o, list_to_set (split o)) ∅ o3 : gset str)), s1)
  | (Raise e, s1) => (Raise e, s1)
  end.
Proof.
  unfold changed_files, listings, uncommitted_args, committed_args, untracked_args.
  fold (base_of self rel). set (base := base_of self rel).
  unfold map_M, bind, ret, lift. cbn [app].
  destruct (_check_output self _ s) as [[e|o1] s1]; [done|].
  destruct from_commit as [c|]; [destruct (truthy c)|].
  - destruct (_check_output self _ s1) as [[e|o2] s2]; [done|].
    destruct include_untracked.
    + by destruct (_check_output self _ s2) as [[e|o3] s3].
    + cbn [from_option]. by rewrite ?union_empty_r_L.
  - destruct include_untracked.
    + destruct (_check_output self _ s1) as [[e|o3] s3]; [done|].
      cbn [from_option]. by rewrite ?union_empty_r_L.
    + cbn [from_option]. by rewrite ?union_empty_r_L.
  - destruct include_untracked.
    + destruct (_check_output self _ s1) as [[e|o3] s3]; [done|].
      cbn [from_option]. by rewrite ?union_empty_r_L.
    + cbn [from_option]. by rewrite ?union_empty_r_L.
Qed.

Lemma elem_of_gathered (o1 : str) (o2 o3 : option str) (x : str) :
  x ∈ elements (list_to_set (splitlines o1)
                ∪ from_option (λ o, list_to_set (split o)) ∅ o2
                ∪ from_option (λ o, list_to_set (split o)) ∅ o3 : gset str)
  ↔ x ∈ splitlines o1 ++ from_option split [] o2 ++ from_option split [] o3.
Proof.
  rewrite elem_of_elements, !elem_of_union, !elem_of_app, elem_of_list_to_set.
  destruct o2, o3; cbn [from_option];
    rewrite ?elem_of_list_to_set, ?elem_of_empty, ?elem_of_nil; tauto.
Qed.

End Relativization.

(** *** The claims *)

(** C7.  Containment detection returns true exactly when [/.dockerenv]
    exists, or [/run/.containerenv] exists, or [/proc/self/cgroup] exists
    and its text contains [docker]; otherwise it returns false.  The text
    is what the descriptor, when it exists, reads and decodes to.  The
    process state is left as it was. *)
Theorem is_in_container_iff {os : OS} (s : State os) (raw : bytes) (text : str) :
  (Path_exists os cgroup (world s) = true →
   Path_read_bytes os cgroup (world s) = Return raw) →
  bytes_decode raw = Return text →
  let holds :=
    Path_exists os dockerenv (world s) = true
    ∨ Path_exists os containerenv (world s) = true
    ∨ (Path_exists os cgroup (world s) = true ∧ substring (u "docker") text) in
  (is_in_container s = (Return true, s) ↔ holds)
  ∧ (¬ holds → is_in_container s = (Return false, s)).
Proof.
  intros Hread Hdec holds. subst holds.
  unfold is_in_container, bind, exists_, get, read_text, ret.
  change (parse (u "/.dockerenv")) with dockerenv.
  change (parse (u "/run/.containerenv")) with containerenv.
  change (parse (u "/proc/self/cgroup")) with cgroup.
  destruct (Path_exists os dockerenv (world s)) eqn:E1.
  { split; [split; auto | intros H; exfalso; apply H; auto]. }
  destruct (Path_exists os containerenv (world s)) eqn:E2.
  { split; [split; auto | intros H; exfalso; apply H; auto]. }
  destruct (Path_exists os cgroup (world s)) eqn:E3.
  - rewrite (Hread eq_refl), Hdec.
    destruct (contains (u "docker") text) eqn:Hc.
    + apply contains_spec in Hc.
      split; [split; auto | intros H; exfalso; apply H; auto].
    + assert (¬ substring (u "docker") text) as Hn.
      { intros Hs. apply contains_spec in Hs. congruence. }
      split; [|done]. split; [discriminate|].
      intros [?|[?|[_ ?]]]; done.
  - split; [|done]. split; [discriminate|]. intros [?|[?|[? _]]]; done.
Qed.

(** On a host where only the cgroup descriptor names docker, detection
    answers true. *)
Lemma is_in_container_iff_witness :
  is_in_container (boot docker_host (u "/"))
  = (Return true, boot docker_host (u "/")).
Proof.
  apply (is_in_container_iff (os := docker_host) (boot docker_host (u "/"))
           (b "12:memory:/docker/0a1b2c") (u "12:memory:/docker/0a1b2c")).
  - intros _. reflexivity.
  - vm_compute. reflexivity.
  - right. right. split; [reflexivity|].
    apply contains_spec. vm_compute. reflexivity.
Defined.

(** C8.  Direct construction always yields a handle and leaves the process
    state untouched (no process is run, nothing is checked): without a
    worktree it is the resolved current directory, without a gitdir it is
    the child [.git] of the worktree, without a binary it is [git]. *)
Theorem Git_construction_defaults {os : OS} (s : State os)
    (wt gd : option PathLike) (binary : option str) :
  ∃ g, Git__init__ wt gd binary s = (Return g, s)
    ∧ (wt = None →
       worktree g = Path_resolve os (parse (os_getcwd os (world s))) (world s))
    ∧ (gd = None →
       _gitdir g = mkPath (root (worktree g)) (names (worktree g) ++ [u ".git"]))
    ∧ (binary = None → _gitcmd g = u "git").
Proof.
  rewrite Git__init__eval. eexists. split; [reflexivity|].
  cbn [worktree _gitdir _gitcmd]. repeat split.
  - by intros ->.
  - by intros ->.
  - by intros ->.
Qed.

(** C9.  [commit] and [add] return nothing when git exits with zero; on an
    exit code [n] other than zero they raise the VCS error whose message
    is the command line followed by [failed with exit code n], and
    nothing else. *)
Theorem mutation_exit_code {os : OS} (self : Git) (op : Mutation)
    (s : State os) (n : Z) (w : World os) :
  let cmd := _create_git_cmdline self (mutation_args op) in
  subprocess_call os cmd (world s) = (CallExited n, w) →
  (n = 0%Z → mutate self op s = (Return tt, after_run cmd w s))
  ∧ (n ≠ 0%Z →
     mutate self op s =
     (Raise (GitException
               (join (u " ") cmd ++ u " failed with exit code " ++ str_of_int n)),
      after_run cmd w s)).
Proof.
  intros cmd Hcall.
  assert (mutate self op s = _check_call self (mutation_args op) s) as ->
    by by destruct op.
  rewrite (_check_call_exited self (mutation_args op) s n w Hcall).
  split; intros Hn.
  - by rewrite bool_decide_true.
  - by rewrite bool_decide_false.
Qed.

(** A commit that git refuses with exit code 1. *)
Lemma mutation_exit_code_witness :
  fst (commit project (u "wip")
         (boot (project_host "main") (u "/home/user/project")))
  = Raise (GitException
      (u "git --git-dir=/home/user/project/.git --work-tree=/home/user/project commit --all --message wip failed with exit code 1")).
Proof.
  set (s0 := boot (project_host "main") (u "/home/user/project")).
  pose proof (mutation_exit_code (os := project_host "main") project
                (Commit (u "wip")) s0 1 (u "/home/user/project") eq_refl)
    as [_ Hfail].
  cbn [mutate] in Hfail. rewrite Hfail by done. reflexivity.
Defined.

(** C6.  When [rev-parse --abbrev-ref HEAD] succeeds with decodable
    streams, [branch_name] returns the stripped, decoded output, except
    that it returns [None] exactly when that text is [HEAD]. *)
Theorem branch_name_detached {os : OS} (self : Git) (s : State os)
    (out err : bytes) (w : World os) (msg text : str) :
  let cmd := _create_git_cmdline self [u "rev-parse"; u "--abbrev-ref"; u "HEAD"] in
  Popen_communicate os cmd (world s) = (Exited 0 out err, w) →
  bytes_decode err = Return msg →
  bytes_decode out = Return text →
  ∃ r, branch_name self s = (Return r, after_run cmd w s)
     ∧ (r = None ↔ strip text = u "HEAD")
     ∧ (strip text ≠ u "HEAD" → r = Some (strip text)).
Proof.
  intros cmd Hrun Herr Hout. unfold branch_name, bind, ret.
  rewrite (_check_output_exited self _ s 0 out err w Hrun), Herr, Hout.
  rewrite bool_decide_true by done.
  eexists. split; [reflexivity|]. case_bool_decide as Hb.
  - by split.
  - split; [by split|done].
Qed.

(** On a detached checkout the branch is absent. *)
Lemma branch_name_detached_witness :
  branch_name project (boot (project_host "HEAD") (u "/home/user/project"))
  = (Return None,
     after_run (os := project_host "HEAD") branch_query (u "/home/user/project")
       (boot (project_host "HEAD") (u "/home/user/project"))).
Proof.
  destruct (branch_name_detached (os := project_host "HEAD") project
              (boot (project_host "HEAD") (u "/home/user/project"))
              (b "HEAD" ++ LF) [] (u "/home/user/project") [] (u "HEAD" ++ [10%N]))
    as (r & Hr & Hnone & _).
  - by vm_compute.
  - by vm_compute.
  - by vm_compute.
  - rewrite Hr. f_equal. f_equal. apply Hnone. by vm_compute.
Defined.

(** C5, amended.  Once the discovery process has exited and its stderr
    decodes: a nonzero exit raises the VCS error carrying the stderr text,
    or the generated message when that text is empty; a zero exit with
    decodable stdout returns the handle of direct construction on the
    stripped text, so its worktree is that text resolved (and is the
    text's own path when resolving leaves it alone), its gitdir the child
    [.git], its binary [git]. *)
Theorem mount_outcome {os : OS} (subdir binary : option PathLike)
    (s s1 : State os) (rc : Z) (out err : bytes) (msg : str) :
  discovery_process subdir binary s = (Return (rc, out, err), s1) →
  bytes_decode err = Return msg →
  (rc ≠ 0%Z →
   mount subdir binary s =
   (Raise (GitException
             (if truthy msg then msg
              else join (u " ") (mount_cmd binary)
                   ++ u " failed with exit code " ++ str_of_int rc)), s1))
  ∧ (rc = 0%Z → ∀ text, bytes_decode out = Return text →
     ∃ g, mount subdir binary s = (Return g, s1)
        ∧ worktree g = Path_resolve os (parse (strip text)) (world s1)
        ∧ _gitdir g = truediv (worktree g) (u ".git")
        ∧ _gitcmd g = u "git"
        ∧ (Path_resolve os (parse (strip text)) (world s1) = parse (strip text) →
           worktree g = parse (strip text))).
Proof.
  intros Hrun Herr. rewrite mount_unfold, Hrun, Herr. split.
  - intros Hrc. by rewrite bool_decide_false.
  - intros -> text ->. rewrite bool_decide_true by done.
    eexists. split; [reflexivity|]. by cbn.
Qed.

(** Outside every repository, [mount] raises with git's own complaint. *)
Lemma mount_outcome_witness :
  mount None None (boot outside_host (u "/tmp"))
  = (Raise (GitException
       (u "fatal: not a git repository (or any of the parent directories): .git" ++ [10%N])),
     mkState (u "/tmp" : World outside_host) NO [] [discovery_cmd]).
Proof.
  refine (proj1 (mount_outcome (os := outside_host) None None
                   (boot outside_host (u "/tmp"))
                   (mkState (u "/tmp" : World outside_host) NO [] [discovery_cmd])
                   128 [] not_a_repository
                   (u "fatal: not a git repository (or any of the parent directories): .git" ++ [10%N])
                   _ _) _).
  - reflexivity.
  - vm_compute. reflexivity.
  - done.
Defined.

(** C5 as stated fails twice: a discovery that prints the relative path
    [project] from [/home/user] yields the worktree [/home/user/project],
    not the printed text; and a successful discovery whose stderr holds a
    Latin-1 warning raises [UnicodeDecodeError] instead of returning. *)
Lemma mount_worktree_is_resolved :
  (Popen_communicate relative_host (mount_cmd None) (u "/home/user")
     = (Exited 0 (b "project" ++ LF) [], u "/home/user")
   ∧ _cleanse (b "project" ++ LF) (boot relative_host (u "/home/user"))
     = (Return (u "project"), boot relative_host (u "/home/user"))
   ∧ ∃ g, fst (mount None None (boot relative_host (u "/home/user"))) = Return g
        ∧ worktree g = parse (u "/home/user/project")
        ∧ worktree g ≠ parse (u "project")
        ∧ to_str (worktree g) ≠ u "project")
  ∧ (Popen_communicate warning_host (mount_cmd None) (u "/home/user/project")
       = (Exited 0 (b "/home/user/project" ++ LF)
                 (b "warning: r" ++ [xe9] ++ b "f" ++ [xe9] ++ b "rence ambigu" ++ [xeb] ++ LF),
          u "/home/user/project")
     ∧ fst (mount None None (boot warning_host (u "/home/user/project")))
       = Raise UnicodeDecodeError).
Proof.
  split; [split; [reflexivity|split; [by vm_compute|]]|split; [reflexivity|by vm_compute]].
  eexists. split; [by vm_compute|]. by vm_compute.
Qed.

(** C4, amended.  From the uninitialized slot: a call that returns has
    run discovery exactly once, left the slot at the handle or at absent,
    and every later call returns that outcome and changes nothing.  The
    slot becomes the handle when [mount] and the branch query succeed, and
    absent when either raises a VCS error, which is logged.  An error that
    escapes is never a VCS error and leaves the slot uninitialized. *)
Theorem get_git_caches_completed_discovery {os : OS} (s : State os) :
  _Git s = NO →
  (∀ r s1, get_git s = (Return r, s1) →
     (r = Cached None ∨ ∃ git, r = Cached (Some git))
     ∧ _Git s1 = r
     ∧ discoveries s1 = S (discoveries s)
     ∧ ∀ n, repeat_get_git n s1 = (repeat (Return r) n, s1))
  ∧ (∀ git s1 branch s2,
       mount None None s = (Return git, s1) →
       branch_name git s1 = (Return branch, s2) →
       get_git s = (Return (Cached (Some git)), resolved_after git branch s2))
  ∧ (∀ m s1,
       mount None None s = (Raise (GitException m), s1) →
       get_git s = (Return (Cached None), absent_after (GitException m) s1))
  ∧ (∀ git s1 m s2,
       mount None None s = (Return git, s1) →
       branch_name git s1 = (Raise (GitException m), s2) →
       get_git s = (Return (Cached None), absent_after (GitException m) s2))
  ∧ (∀ e s1, get_git s = (Raise e, s1) →
       is_GitException e = false ∧ _Git s1 = NO
       ∧ discoveries s1 = S (discoveries s)).
Proof.
  intros Hno. split; [|split; [|split; [|split]]].
  - intros r s1 Hget.
    destruct (get_git_first_summary s s1 _ Hno Hget) as (Hd & Hr & Hslot).
    repeat split; try done.
    intros n. destruct Hr as [->|[git ->]]; by apply repeat_get_git_cached.
  - intros git s1 branch s2 Hm Hb. by rewrite (get_git_first s Hno), Hm, Hb.
  - intros m s1 Hm. by rewrite (get_git_first s Hno), Hm.
  - intros git s1 m s2 Hm Hb. by rewrite (get_git_first s Hno), Hm, Hb.
  - intros e s1 Hget.
    destruct (get_git_first_summary s s1 _ Hno Hget) as (Hd & He & Hslot).
    done.
Qed.

(** Outside every repository the first call caches absent, and three more
    calls run nothing. *)
Lemma get_git_caches_completed_discovery_witness :
  get_git (boot outside_host (u "/tmp"))
  = (Return (Cached None),
     absent_after (os := outside_host)
       (GitException
          (u "fatal: not a git repository (or any of the parent directories): .git" ++ [10%N]))
       (mkState (u "/tmp" : World outside_host) NO [] [discovery_cmd]))
  ∧ repeat_get_git 3 (snd (get_git (boot outside_host (u "/tmp"))))
    = (repeat (Return (Cached None)) 3, snd (get_git (boot outside_host (u "/tmp"))))
  ∧ discoveries (snd (get_git (boot outside_host (u "/tmp")))) = 1.
Proof.
  destruct (get_git_caches_completed_discovery (os := outside_host)
              (boot outside_host (u "/tmp")) eq_refl)
    as (Hret & _ & Habsent & _ & _).
  pose proof (Habsent _ _ outside_host_mount) as Hget.
  split; [exact Hget|].
  destruct (Hret _ _ Hget) as (_ & _ & Hd & Hrep).
  rewrite Hget. cbn [snd]. split; [apply Hrep | exact Hd].
Defined.

(** C4 as stated fails under a Latin-1 locale: git's complaint does not
    decode, both calls raise [UnicodeDecodeError], the slot stays
    uninitialized and discovery runs twice. *)
Lemma get_git_rediscovers_after_decode_error :
  let s0 := boot latin1_host (u "/tmp") in
  Popen_communicate latin1_host discovery_cmd (u "/tmp")
    = (Exited 128 [] complaint_latin1, u "/tmp")
  ∧ bytes_decode complaint_latin1 = Raise UnicodeDecodeError
  ∧ fst (repeat_get_git 2 s0) = [Raise UnicodeDecodeError; Raise UnicodeDecodeError]
  ∧ _Git (snd (repeat_get_git 2 s0)) = NO
  ∧ spawned (snd (repeat_get_git 2 s0)) = [discovery_cmd; discovery_cmd]
  ∧ ¬ (discoveries (snd (repeat_get_git 2 s0)) ≤ 1).
Proof.
  repeat split; try by vm_compute.
  vm_compute. lia.
Qed.

(** C10.  Making a reported path relative raises [ValueError], and only
    [ValueError], exactly when the path joined to the worktree does not lie
    under the base.  Hence, once their listings succeeded, [changes_in]
    and [changed_files] raise [ValueError] if some reported path lies
    outside the base, and return the set of relative paths if all lie
    inside. *)
Theorem relativization_precondition {os : OS} (self : Git) (rel : option PathLike) :
  let base := base_of self rel in
  let inside := λ f, lies_under (truediv (worktree self) f) base in
  let fix_ := λ f, _fix_git_relative_path self f (PPath base) in
  (∀ f, (fix_ f = Raise ValueError ↔ ¬ inside f)
        ∧ (∀ e, fix_ f = Raise e → e = ValueError)
        ∧ (inside f → ∃ t, fix_ f = Return t))
  ∧ (∀ diffspec (s s1 : State os) out,
       _check_output self (diff_tree_args diffspec) s = (Return out, s1) →
       ((∃ f, f ∈ split out ∧ ¬ inside (strip f)) →
        changes_in self diffspec rel s = (Raise ValueError, s1))
       ∧ ((∀ f, f ∈ split out → inside (strip f)) →
          ∃ paths : gset str,
            changes_in self diffspec rel s = (Return paths, s1)
            ∧ ∀ p, p ∈ paths ↔ ∃ f, f ∈ split out ∧ fix_ (strip f) = Return p))
  ∧ (∀ from_commit include_untracked (s s1 : State os) o1 o2 o3,
       listings self from_commit include_untracked base s
         = (Return (o1, o2, o3), s1) →
       let files := splitlines o1 ++ from_option split [] o2
                    ++ from_option split [] o3 in
       ((∃ f, f ∈ files ∧ ¬ inside f) →
        changed_files self from_commit include_untracked rel s
          = (Raise ValueError, s1))
       ∧ ((∀ f, f ∈ files → inside f) →
          ∃ paths : gset str,
            changed_files self from_commit include_untracked rel s
              = (Return paths, s1)
            ∧ ∀ p, p ∈ paths ↔ ∃ f, f ∈ files ∧ fix_ f = Return p)).
Proof.
  intros base inside fix_. split; [|split].
  - intros f. split; [apply fix_relative_path_raises|].
    split; [apply fix_relative_path_error | intros H; by apply fix_relative_path_ok].
  - intros diffspec s s1 out Hout. rewrite changes_in_eval, Hout. fold base. split.
    + intros (f & Hf & Hout_of). f_equal.
      apply comprehension_Raise.
      * intros x e. apply fix_relative_path_error.
      * exists f. split; [done|]. exists ValueError.
        by apply fix_relative_path_raises.
    + intros Hall.
      destruct (comprehension_Return (λ f, fix_ (strip f)) (split out))
        as (paths & Hp & Hmem).
      { intros x Hx. apply fix_relative_path_ok. by apply Hall. }
      exists paths. split; [by f_equal|done].
  - intros from_commit include_untracked s s1 o1 o2 o3 Hl files.
    rewrite changed_files_eval. fold base. rewrite Hl. split.
    + intros (f & Hf & Hout_of). f_equal.
      apply comprehension_Raise.
      * intros x e. apply fix_relative_path_error.
      * exists f. split; [by apply elem_of_gathered|]. exists ValueError.
        by apply fix_relative_path_raises.
    + intros Hall.
      destruct (comprehension_Return fix_
                  (elements (list_to_set (splitlines o1)
                             ∪ from_option (λ o, list_to_set (split o)) ∅ o2
                             ∪ from_option (λ o, list_to_set (split o)) ∅ o3 : gset str)))
        as (paths & Hp & Hmem).
      { intros x Hx. apply fix_relative_path_ok. apply Hall. by apply elem_of_gathered. }
      exists paths. split; [by f_equal|].
      intros p. rewrite Hmem. split; intros (f & Hf & Hfix); exists f;
        (split; [by apply elem_of_gathered|done]).
Qed.

(** A commit that touched [README.md] cannot be listed relative to
    [/repo/src]. *)
Lemma relativization_precondition_witness :
  changes_in repo (u "HEAD") (Some (PStr (u "/repo/src"))) (boot two_dirs_host (u "/repo"))
  = (Raise ValueError,
     after_run (os := two_dirs_host)
       (_create_git_cmdline repo (diff_tree_args (u "HEAD"))) (u "/repo")
       (boot two_dirs_host (u "/repo"))).
Proof.
  destruct (relativization_precondition (os := two_dirs_host) repo
              (Some (PStr (u "/repo/src")))) as (_ & Hin & _).
  eapply (proj1 (Hin (u "HEAD") _ _ (u "src/app.py" ++ [10%N] ++ u "README.md") _)).
  exists (u "README.md"). split.
  - vm_compute. apply list_elem_of_In. simpl. tauto.
  - intros Hunder. apply relative_to_lies_under in Hunder as [r Hr].
    vm_compute in Hr. discriminate.
  Unshelve. by vm_compute.
Defined.

(** C2, at a failing input.  The branch added [docs/release notes.md].
    The specification's set holds that one name next to [build.gradle];
    [changed_files] cuts the three-dot listing at the blank and returns
    [docs/release] and [notes.md] instead. *)
Theorem changed_files_splits_names_at_blanks :
  let s0 := boot blank_names_host (u "/repo") in
  fst (listings repo (Some (u "main")) false (parse (u "/repo")) s0)
    = Return (u "build.gradle", Some (u "docs/release notes.md"), None)
  ∧ fst (changed_files repo (Some (u "main")) false None s0)
    = Return {[ u "build.gradle"; u "docs/release"; u "notes.md" ]}
  ∧ changed_files_spec repo (parse (u "/repo")) (u "build.gradle")
      (Some (u "docs/release notes.md")) None
    = Return {[ u "build.gradle"; u "docs/release notes.md" ]}
  ∧ fst (changed_files repo (Some (u "main")) false None s0)
    ≠ changed_files_spec repo (parse (u "/repo")) (u "build.gradle")
        (Some (u "docs/release notes.md")) None.
Proof.
  repeat split; try by vm_compute.
Qed.

(** X1, a companion of C2.  When the three-dot listing and the untracked
    listing hold plain names only, [changed_files] returns exactly the set
    the specification describes, or fails exactly as it does. *)
Theorem changed_files_meets_spec_on_plain_names {os : OS} (self : Git)
    (from_commit : option str) (include_untracked : bool)
    (rel : option PathLike) (s s1 : State os) (o1 : str) (o2 o3 : option str) :
  listings self from_commit include_untracked (base_of self rel) s
    = (Return (o1, o2, o3), s1) →
  (∀ o, o2 = Some o → plain_lines o) →
  (∀ o, o3 = Some o → plain_lines o) →
  changed_files self from_commit include_untracked rel s
  = (changed_files_spec self (base_of self rel) o1 o2 o3, s1).
Proof.
  intros Hl H2 H3. rewrite changed_files_eval, Hl. f_equal.
  unfold changed_files_spec, relativized, reported_files.
  apply comprehension_ext.
  - intros x e. apply fix_relative_path_error.
  - intros x. rewrite elem_of_gathered.
    destruct o2 as [o2|], o3 as [o3|]; cbn [from_option];
      rewrite ?(split_plain_lines o2) by eauto;
      rewrite ?(split_plain_lines o3) by eauto; done.
Qed.

(** Two plain names on the branch, one uncommitted change. *)
Lemma changed_files_meets_spec_on_plain_names_witness :
  fst (changed_files repo (Some (u "main")) false None
         (boot plain_names_host (u "/repo")))
  = Return {[ u "build.gradle"; u "docs/notes.md"; u "src/app.py" ]}.
Proof.
  rewrite (changed_files_meets_spec_on_plain_names (os := plain_names_host)
             repo (Some (u "main")) false None (boot plain_names_host (u "/repo"))
             (snd (listings repo (Some (u "main")) false (parse (u "/repo"))
                     (boot plain_names_host (u "/repo"))))
             (u "build.gradle")
             (Some (u "docs/notes.md" ++ [10%N] ++ u "src/app.py")) None).
  - by vm_compute.
  - by vm_compute.
  - intros o [= <-]. unfold plain_lines. vm_compute.
    repeat (constructor; [split; [intros [=] | repeat constructor]|]).
    constructor.
  - intros o [=].
Defined.

End BuildEnvironmentFacts.

(* ===================================================================== *)
(** ** Facts about [task_registrar]                                       *)
(* ===================================================================== *)

Module TaskRegistrarFacts.
Import Py task_registrar TaskSpec TaskFixtures.

Lemma truthy_name_declared (x : option str) :
  x ≠ Some [] → truthy_name x = true ↔ is_Some x.
Proof.
  destruct x as [[|c s]|]; cbn; intros H; split; try done; eauto;
    by intros [? [=]].
Qed.

Lemma truthy_tuple_declared (x : option (list value)) :
  x ≠ Some [] → truthy_tuple x = true ↔ is_Some x.
Proof.
  destruct x as [[|c s]|]; cbn; intros H; split; try done; eauto;
    by intros [? [=]].
Qed.

Lemma select_task_function {TaskClass : Type} (f : PyFunction) :
  getargspec_wf (argspec f) →
  ((∃ msg, select_task (TaskClass := TaskClass) (Function f) = Raise (GoalError msg))
   ↔ declares_too_much (argspec f))
  ∧ (¬ declares_too_much (argspec f) →
     select_task (TaskClass := TaskClass) (Function f) = Return (FuncTaskFor f)).
Proof.
  intros (Hv & Hk & Hd). unfold select_task, declares_too_much.
  pose proof (truthy_name_declared _ Hv) as Tv.
  pose proof (truthy_name_declared _ Hk) as Tk.
  pose proof (truthy_tuple_declared _ Hd) as Td.
  destruct (truthy_name (varargs (argspec f))) eqn:Ev; cbn [orb].
  { split; [split; [intros _; left; by apply Tv | eauto]|].
    intros Hn. exfalso. apply Hn. left. by apply Tv. }
  destruct (truthy_name (keywords (argspec f))) eqn:Ek; cbn [orb].
  { split; [split; [intros _; right; left; by apply Tk | eauto]|].
    intros Hn. exfalso. apply Hn. right. left. by apply Tk. }
  destruct (truthy_tuple (defaults (argspec f))) eqn:Ed; cbn [orb].
  { split; [split; [intros _; right; right; left; by apply Td | eauto]|].
    intros Hn. exfalso. apply Hn. right. right. left. by apply Td. }
  destruct (1 <? length (args (argspec f))) eqn:El.
  { apply Nat.ltb_lt in El.
    split; [split; [intros _; by repeat right | eauto]|].
    intros Hn. exfalso. apply Hn. by repeat right. }
  apply Nat.ltb_ge in El.
  assert (¬ (is_Some (varargs (argspec f)) ∨ is_Some (keywords (argspec f))
             ∨ is_Some (defaults (argspec f)) ∨ 1 < length (args (argspec f)))) as Hnone.
  { intros [H|[H|[H|H]]].
    - apply Tv in H. congruence.
    - apply Tk in H. congruence.
    - apply Td in H. congruence.
    - lia. }
  split; [|done]. split; [by intros [msg [=]] | done].
Qed.

(** C3.  For a function whose argspec is what [inspect.getargspec]
    returns and whose dependencies resolve, construction raises the
    invalid-action error exactly when the signature declares varargs,
    keywords, defaults or more than one fixed argument; with at most one
    fixed argument and none of the rest it succeeds with the adapter for
    that function. *)
Theorem registrar_rejects_exactly {Goal TaskClass : Type}
    (by_name : str → result Goal) (name : str) (f : PyFunction)
    (deps : option (list str)) (serialize : bool) :
  getargspec_wf (argspec f) →
  dependencies_resolve by_name deps →
  let made := TaskRegistrar__init__ (TaskClass := TaskClass) by_name name
                (Function f) deps serialize in
  ((∃ msg, made = Raise (GoalError msg)) ↔ declares_too_much (argspec f))
  ∧ (length (args (argspec f)) ≤ 1 →
     varargs (argspec f) = None → keywords (argspec f) = None →
     defaults (argspec f) = None →
     ∃ reg, made = Return reg ∧ task_type reg = FuncTaskFor f
            ∧ task_registrar.name reg = name
            ∧ task_registrar.serialize reg = serialize).
Proof.
  intros Hwf Hdeps made. subst made. unfold TaskRegistrar__init__.
  assert (∃ gs, match deps with
                | Some (d :: ds) => resolve_all by_name (d :: ds)
                | _ => Return []
                end = Return gs) as [gs ->].
  { destruct deps as [[|d ds]|]; eauto. }
  destruct (select_task_function (TaskClass := TaskClass) f Hwf) as [Hiff Hok].
  split.
  - rewrite <- Hiff.
    destruct (select_task (Function f)) as [e|t]; split; intros [msg [= ->]]; eauto.
  - intros Hlen Hv Hk Hd. rewrite Hok.
    + eexists. by repeat split.
    + unfold declares_too_much. rewrite Hv, Hk, Hd.
      intros [[? [=]]|[[? [=]]|[[? [=]]|?]]]. lia.
Qed.

(** A one-argument action with two dependencies is accepted. *)
Lemma registrar_rejects_exactly_witness :
  ∃ reg, TaskRegistrar__init__ (TaskClass := Empty_set) registry (u "compile")
           (Function uses_context) (Some [u "resolve"; u "gen"]) true
         = Return reg
       ∧ task_type reg = FuncTaskFor uses_context
       ∧ name reg = u "compile"
       ∧ serialize reg = true.
Proof.
  apply (registrar_rejects_exactly (TaskClass := Empty_set) registry
           (u "compile") uses_context (Some [u "resolve"; u "gen"]) true).
  - by repeat split.
  - intros ds [= <-]. by eexists.
  - cbn. lia.
  - reflexivity.
  - reflexivity.
  - reflexivity.
Defined.



(** C1, at failing inputs.  Built with the context as its one positional
    argument, the adapter of a zero-argument function binds the context
    and [execute] fails, although a call without arguments succeeds; built
    with the context by keyword, the adapter of a one-argument function
    calls it bare and [execute] fails, although a call with the context
    succeeds; built with two positional arguments it cannot be
    constructed. *)
Theorem FuncTask_strategy_ignores_arity :
  (∃ t, FuncTask__init__ base_init thunk [the_context] [] = Return t
      ∧ action t = Partial thunk [the_context]
      ∧ execute t = Raise TypeError)
  ∧ call (Plain thunk) [] = Return VNone
  ∧ (∃ t, FuncTask__init__ base_init uses_context [] [(u "context", the_context)]
          = Return t
      ∧ action t = Plain uses_context
      ∧ execute t = Raise TypeError)
  ∧ call (Partial uses_context [the_context]) [] = Return VNone
  ∧ FuncTask__init__ base_init uses_context [the_context; the_workdir] []
    = Raise (AssertionError (u "Unexpected fallthrough")).
Proof.
  split; [eexists; by repeat split|]. split; [done|].
  split; [eexists; by repeat split|]. by split.
Qed.

End TaskRegistrarFacts.

(* ===================================================================== *)
(** ** Further behaviour of the build environment and the git facade      *)
(* ===================================================================== *)

Module BehaviourFacts.
Import Py pathlib build_environment Spec Behaviour PyFacts Fixtures Hosts.
Import BuildEnvironmentFacts.

(** *** Text and paths *)

Lemma lstrip_split (s : str) :
  ∃ pre, s = pre ++ lstrip s ∧ Forall (λ c, isspace c = true) pre
         ∧ ∀ c r, lstrip s = c :: r → isspace c = false.
Proof.
  induction s as [|c s (pre & Hs & Hpre & Hhead)].
  - exists []. by repeat split.
  - cbn [lstrip]. destruct (isspace c) eqn:Hc.
    + exists (c :: pre). split; [by rewrite Hs at 1|]. split; [by constructor|done].
    + exists []. split; [done|]. split; [done|]. by intros c' r [= <- _].
Qed.

Lemma strip_split (s : str) :
  ∃ pre post, s = pre ++ strip s ++ post
    ∧ Forall (λ c, isspace c = true) pre
    ∧ Forall (λ c, isspace c = true) post
    ∧ (∀ c r, strip s = c :: r → isspace c = false)
    ∧ (∀ c r, strip s = r ++ [c] → isspace c = false).
Proof.
  unfold strip, rstrip.
  destruct (lstrip_split s) as (pre & Hs & Hpre & Hhead).
  destruct (lstrip_split (rev (lstrip s))) as (tsop & Hr & Hpost & Hlast).
  exists pre, (rev tsop). split; [|split; [done|split; [|split]]].
  - rewrite Hs at 1. f_equal. rewrite <- rev_app_distr, <- Hr. by rewrite rev_involutive.
  - by apply Forall_rev.
  - intros c r Hcr. destruct (lstrip s) as [|c0 l0] eqn:Hl.
    { cbn in Hcr. discriminate. }
    assert (rev (lstrip (rev (c0 :: l0))) ++ rev tsop = c0 :: l0) as Hwhole.
    { rewrite <- rev_app_distr, <- Hr. by rewrite rev_involutive. }
    rewrite Hcr in Hwhole. injection Hwhole as -> _. by apply (Hhead c0 l0).
  - intros c r Hcr. apply (Hlast c (rev r)).
    apply (f_equal (@rev N)) in Hcr. rewrite rev_involutive in Hcr.
    rewrite Hcr, rev_app_distr. done.
Qed.

Lemma strip_blank (text : str) :
  Forall (λ c, isspace c = true) text → strip text = [].
Proof.
  intros H. unfold strip. assert (lstrip text = []) as ->; [|done].
  induction H as [|c l Hc _ IH]; [done|]. cbn [lstrip]. by rewrite Hc.
Qed.

Lemma lstrip_plain (x : str) :
  (∀ c r, x = c :: r → isspace c = false) → lstrip x = x.
Proof. destruct x as [|c r]; [done|]. intros H. cbn. by rewrite (H c r). Qed.

Lemma strip_plain (x : str) :
  Forall (λ c, isspace c = false) x → strip x = x.
Proof.
  intros H. unfold strip, rstrip.
  assert (lstrip x = x) as ->.
  { apply lstrip_plain. intros c r ->. by apply Forall_cons in H as [? _]. }
  rewrite lstrip_plain; [by rewrite rev_involutive|].
  intros c r Hr. rewrite Forall_forall in H. apply H.
  apply list_elem_of_In, in_rev. rewrite Hr. apply in_eq.
Qed.

Lemma split_sep_from_app (n s cur : str) :
  sep ∉ n → split_sep_from cur (n ++ s) = split_sep_from (rev n ++ cur) s.
Proof.
  revert cur. induction n as [|c n IH]; intros cur Hn; [done|].
  apply not_elem_of_cons in Hn as [Hc Hn]. cbn [app split_sep_from].
  destruct (N.eqb_spec c sep) as [->|_]; [done|].
  rewrite IH by done. cbn [rev]. by rewrite <- app_assoc.
Qed.

Lemma split_sep_join (ns : list str) :
  ns ≠ [] → Forall (λ n, sep ∉ n) ns → split_sep (join [sep] ns) = ns.
Proof.
  unfold split_sep. induction ns as [|x ns IH]; intros Hne Hall; [done|].
  apply Forall_cons in Hall as [Hx Hall]. destruct ns as [|y ns].
  - cbn [join]. rewrite <- (app_nil_r x) at 1.
    rewrite split_sep_from_app by done. cbn [split_sep_from].
    by rewrite app_nil_r, rev_involutive.
  - change (join [sep] (x :: y :: ns)) with (x ++ sep :: join [sep] (y :: ns)).
    rewrite split_sep_from_app by done. cbn [split_sep_from].
    rewrite N.eqb_refl, app_nil_r, rev_involutive. f_equal. by apply IH.
Qed.

(** Parsing the clean names joined by slashes gives back the names. *)
Lemma parse_join (ns : list str) :
  Forall clean_name ns → parse (join [sep] ns) = mkPath [] ns.
Proof.
  intros Hall. destruct ns as [|x ns]; [done|].
  assert (Forall (λ n, sep ∉ n) (x :: ns)) as Hsep.
  { eapply Forall_impl; [exact Hall|]. by intros n (_ & _ & ?). }
  assert (splitroot (join [sep] (x :: ns)) = ([], join [sep] (x :: ns))) as Hroot.
  { apply Forall_cons in Hall as [(Hx & _ & Hxs) _].
    destruct x as [|c x]; [done|]. apply not_elem_of_cons in Hxs as [Hc _].
    assert (∃ t, join [sep] ((c :: x) :: ns) = c :: t) as [t ->].
    { destruct ns; cbn [join app]; eauto. }
    unfold splitroot. by destruct (N.eqb_spec c sep). }
  unfold parse. rewrite Hroot, split_sep_join by done. f_equal.
  clear Hroot Hsep. induction Hall as [|n l (Hn & Hdot & _) _ IH]; [done|].
  cbn [List.filter]. unfold keep_name at 1.
  destruct n; [done|]. cbn [truthy]. rewrite bool_decide_false by done.
  cbn. by rewrite IH.
Qed.

Lemma comprehension_same (g h : str → result str) (fs : list str) :
  Forall (λ x, g x = h x) fs → comprehension g fs = comprehension h fs.
Proof.
  induction 1 as [|x l Hx _ IH]; [done|]. cbn [comprehension]. by rewrite Hx, IH.
Qed.

(** *** Traces *)

Section Trace.
Context {os : OS}.
Implicit Types (s : State os) (self : Git) (args : list str).

Lemma bind_eval {A B} (m : M os A) (k : A → M os B) s :
  bind m k s = match m s with
               | (Return a, s') => k a s'
               | (Raise e, s') => (Raise e, s')
               end.
Proof. reflexivity. Qed.








Lemma _check_output_blank self args s (w : World os) :
  prints_blank (_create_git_cmdline self args) s w →
  _check_output self args s
  = (Return [], after_run (_create_git_cmdline self args) w s).
Proof.
  intros (out & err & msg & text & Hp & Herr & Hout & Hblank).
  rewrite (_check_output_exited _ _ _ _ _ _ _ Hp), Herr, Hout.
  rewrite bool_decide_true by done. by rewrite strip_blank.
Qed.

Lemma pushd_frame {A} (d : str) (body : M os A) s :
  (∀ s0, log (snd (body s0)) = log s0 ∧ _Git (snd (body s0)) = _Git s0) →
  log (snd (pushd d body s)) = log s ∧ _Git (snd (pushd d body s)) = _Git s.
Proof.
  intros Hbody. unfold pushd, bind, getcwd, get, chdir, try_finally.
  destruct (os_chdir os d (world s)) as [r|w1]; [done|].
  specialize (Hbody (set_world w1 s)).
  destruct (body (set_world w1 s)) as [r1 s1]. cbn [snd] in Hbody.
  destruct Hbody as [Hl Hg].
  destruct (os_chdir os (os_getcwd os (world s)) (world s1)) as [r2|w2]; by cbn.
Qed.

Lemma discovery_process_frame (subdir binary : option PathLike) s :
  log (snd (discovery_process subdir binary s)) = log s
  ∧ _Git (snd (discovery_process subdir binary s)) = _Git s.
Proof.
  assert (∀ s0 : State os,
            log (snd (_invoke (mount_cmd binary) s0)) = log s0
            ∧ _Git (snd (_invoke (mount_cmd binary) s0)) = _Git s0) as Hinv.
  { intros s0. destruct (_invoke_frame (mount_cmd binary) s0) as (_ & ? & ?). done. }
  unfold discovery_process.
  destruct subdir as [d|]; [destruct (truthy_path d)|]; try apply Hinv.
  by apply pushd_frame.
Qed.

End Trace.

(** *** The properties *)

(** X3.  When the git binary cannot be launched, the two kinds of
    operation fail differently: an operation that reads git's output
    raises a VCS error whose message is [Failed to execute command],
    the command line joined by blanks, a colon and the [repr] of the
    [OSError]; [commit] and [add] let the [OSError] itself through.  In
    both cases the command line was logged and handed to [subprocess]
    before. *)
Theorem unlaunchable_binary {os : OS} (self : Git) (args : list str)
    (op : Mutation) (s : State os) (r r' : str) (w w' : World os) :
  let query := _create_git_cmdline self args in
  let change := _create_git_cmdline self (mutation_args op) in
  Popen_communicate os query (world s) = (LaunchFailed r, w) →
  subprocess_call os change (world s) = (CallFailed r', w') →
  _check_output self args s
    = (Raise (GitException (launch_failure_message query r)), after_run query w s)
  ∧ mutate self op s = (Raise (OSError r'), after_run change w' s).
Proof.
  intros query change Hq Hc. split.
  - unfold _check_output, bind, _log_call, logger, modify, _invoke.
    fold query. cbn [add_spawned add_log world set_world]. by rewrite Hq.
  - assert (mutate self op s = _check_call self (mutation_args op) s) as ->
      by by destruct op.
    unfold _check_call, bind, _log_call, logger, modify, call_process.
    fold change. cbn [add_spawned add_log world set_world]. by rewrite Hc.
Qed.

(** Without a git binary, [commit_id] raises the VCS error and [add] the
    [OSError]. *)
Lemma unlaunchable_binary_witness :
  fst (commit_id project (boot bare_host (u "/home/user/project")))
  = Raise (GitException (u "Failed to execute command git --git-dir=/home/user/project/.git --work-tree=/home/user/project rev-parse HEAD: ENOENT"))
  ∧ fst (add project [parse (u "README.md")] (boot bare_host (u "/home/user/project")))
    = Raise (OSError (u "ENOENT")).
Proof.
  destruct (unlaunchable_binary (os := bare_host) project [u "rev-parse"; u "HEAD"]
              (Add [parse (u "README.md")]) (boot bare_host (u "/home/user/project"))
              (u "ENOENT") (u "ENOENT") (u "/home/user/project")
              (u "/home/user/project") eq_refl eq_refl) as [Hq Hc].
  split.
  - unfold commit_id. rewrite Hq. reflexivity.
  - cbn [mutate] in Hc. rewrite Hc. reflexivity.
Defined.

(** X4.  On a machine where git cannot be launched, the first call of
    [get_git] does not fail: it returns absent, logs the condition with
    the launch failure as its cause, and caches the outcome, so that
    every later call returns absent without trying to launch git again. *)
Theorem get_git_without_git {os : OS} (s : State os) (r : str) (w : World os)
    (n : nat) :
  _Git s = NO →
  Popen_communicate os discovery_cmd (world s) = (LaunchFailed r, w) →
  let e := GitException (launch_failure_message discovery_cmd r) in
  let s1 := absent_after e (mkState w NO (log s) (spawned s ++ [discovery_cmd])) in
  get_git s = (Return (Cached None), s1)
  ∧ repeat_get_git n s1 = (repeat (Return (Cached None)) n, s1).
Proof.
  intros Hno Hp e s1.
  assert (get_git s = (Return (Cached None), s1)) as Hget.
  { rewrite (get_git_first s Hno), mount_unfold. unfold discovery_process.
    change (mount_cmd None) with discovery_cmd.
    unfold _invoke. cbn [add_spawned world]. rewrite Hp.
    reflexivity. }
  split; [done|]. by apply repeat_get_git_cached.
Qed.

Lemma get_git_without_git_witness :
  let s1 := absent_after (os := bare_host)
              (GitException (launch_failure_message discovery_cmd (u "ENOENT")))
              (mkState (u "/tmp" : World bare_host) NO [] [discovery_cmd]) in
  get_git (boot bare_host (u "/tmp")) = (Return (Cached None), s1)
  ∧ repeat_get_git 3 s1 = (repeat (Return (Cached None)) 3, s1).
Proof.
  exact (get_git_without_git (os := bare_host) (boot bare_host (u "/tmp"))
           (u "ENOENT") (u "/tmp") 3 eq_refl eq_refl).
Defined.

(** X5.  [_cleanse] leaves the process state alone and fails only with
    [UnicodeDecodeError], exactly when the output is not UTF-8.  Otherwise
    the text it returns is the decoded output without the whitespace at
    its two ends: the decoded output is the returned text between two runs
    of whitespace, and the returned text neither starts nor ends with a
    whitespace character. *)
Theorem cleanse_trims {os : OS} (out : bytes) (s : State os) :
  snd (_cleanse out s) = s
  ∧ match fst (_cleanse out s) with
    | Raise e => e = UnicodeDecodeError ∧ bytes_decode out = Raise UnicodeDecodeError
    | Return t =>
      ∃ text pre post,
        bytes_decode out = Return text ∧ text = pre ++ t ++ post
        ∧ Forall (λ c, isspace c = true) pre
        ∧ Forall (λ c, isspace c = true) post
        ∧ (∀ c r, t = c :: r → isspace c = false)
        ∧ (∀ c r, t = r ++ [c] → isspace c = false)
    end.
Proof.
  unfold _cleanse, map_M, bind, lift, ret, bytes_decode.
  destruct (utf8_decode (map Byte.to_N out)) as [text|]; cbn [fst snd].
  - split; [done|]. destruct (strip_split text) as (pre & post & H).
    exists text, pre, post. split; [done|exact H].
  - done.
Qed.


(** X7.  When the first git process of a reading operation ([commit_id],
    [branch_name], [changed_files], [changes_in]) exits with a nonzero
    code and decodable standard error, the operation raises a VCS error
    after that one process: its message is the standard-error text as git
    wrote it (not trimmed), or the generated exit-code message when that
    text is empty.  Standard output is not looked at. *)
Theorem failed_query_reports_stderr {os : OS} (self : Git) (op : Operation)
    (s : State os) (cmd : list str) (rest : list (list str))
    (rc : Z) (out err : bytes) (msg : str) (w : World os) :
  is_query op = true →
  planned self op = cmd :: rest →
  Popen_communicate os cmd (world s) = (Exited rc out err, w) →
  rc ≠ 0%Z →
  bytes_decode err = Return msg →
  perform self op s
  = (Raise (GitException (if truthy msg then msg else exit_code_message cmd rc)),
     after_run cmd w s).
Proof.
  intros Hq Hplan Hp Hrc Herr.
  assert (∀ args, cmd = _create_git_cmdline self args →
            _check_output self args s
            = (Raise (GitException (if truthy msg then msg
                                    else exit_code_message cmd rc)),
               after_run cmd w s)) as Hout.
  { intros args ->. rewrite (_check_output_exited _ _ _ _ _ _ _ Hp), Herr.
    by rewrite bool_decide_false. }
  destruct op as [| |c i r|d r|m]; [| | | |done];
    cbn [planned map] in Hplan; cbn [perform]; unfold discard, map_M.
  - injection Hplan as <- _. unfold commit_id. rewrite bind_eval.
    by rewrite (Hout _ eq_refl).
  - injection Hplan as <- _. unfold branch_name. rewrite !bind_eval.
    by rewrite (Hout _ eq_refl).
  - unfold planned_listings in Hplan. cbn [app map] in Hplan.
    injection Hplan as <- _. rewrite bind_eval, changed_files_eval.
    unfold listings. rewrite bind_eval. by rewrite (Hout _ eq_refl).
  - injection Hplan as <- _. rewrite bind_eval, changes_in_eval.
    by rewrite (Hout _ eq_refl).
Qed.

(** Outside a repository, [commit_id] raises git's complaint, line end
    included. *)
Lemma failed_query_reports_stderr_witness :
  fst (perform project CommitId (boot outside_host (u "/tmp")))
  = Raise (GitException
             (u "fatal: not a git repository (or any of the parent directories): .git"
              ++ [10%N])).
Proof.
  rewrite (failed_query_reports_stderr (os := outside_host) project CommitId
             (boot outside_host (u "/tmp"))
             (_create_git_cmdline project [u "rev-parse"; u "HEAD"]) []
             128 [] not_a_repository
             (u "fatal: not a git repository (or any of the parent directories): .git"
              ++ [10%N])
             (u "/tmp") eq_refl eq_refl eq_refl ltac:(done) ltac:(by vm_compute)).
  reflexivity.
Defined.

(** X8.  A listing that prints nothing but whitespace reports no file:
    [changed_files] without a commit to compare with ([None] or the empty
    string, which counts as none) and without untracked files returns the
    empty set after the one diff, and [changes_in] returns the empty set,
    whatever directory the paths were to be made relative to. *)
Theorem quiet_repository {os : OS} (self : Git) (from_commit : option str)
    (diffspec : str) (rel : option PathLike) (s : State os) (w w' : World os) :
  let diff := _create_git_cmdline self (uncommitted_args (base_of self rel)) in
  let tree := _create_git_cmdline self (diff_tree_args diffspec) in
  from_option truthy false from_commit = false →
  prints_blank diff s w →
  prints_blank tree s w' →
  changed_files self from_commit false rel s = (Return ∅, after_run diff w s)
  ∧ changes_in self diffspec rel s = (Return ∅, after_run tree w' s).
Proof.
  intros diff tree Hfc Hd Ht. split.
  - rewrite changed_files_eval. unfold listings, bind, ret.
    rewrite (_check_output_blank _ _ _ _ Hd).
    destruct from_commit as [c|]; [cbn in Hfc; rewrite Hfc|]; reflexivity.
  - rewrite changes_in_eval, (_check_output_blank _ _ _ _ Ht). reflexivity.
Qed.

Lemma clean_host_prints_blank (cmd : list str) (s : State clean_host) :
  prints_blank (os := clean_host) cmd s (world s).
Proof.
  exists LF, [], [], [10%N]. repeat split; try reflexivity.
  by apply Forall_singleton.
Qed.

Lemma quiet_repository_witness :
  fst (changed_files repo (Some []) false None (boot clean_host (u "/repo"))) = Return ∅
  ∧ fst (changes_in repo (u "HEAD") (Some (PStr (u "/repo/src")))
           (boot clean_host (u "/repo"))) = Return ∅.
Proof.
  split.
  - destruct (quiet_repository (os := clean_host) repo (Some []) (u "HEAD") None
                (boot clean_host (u "/repo")) (u "/repo") (u "/repo") eq_refl
                (clean_host_prints_blank _ _) (clean_host_prints_blank _ _))
      as [-> _].
    reflexivity.
  - destruct (quiet_repository (os := clean_host) repo None (u "HEAD")
                (Some (PStr (u "/repo/src")))
                (boot clean_host (u "/repo")) (u "/repo") (u "/repo") eq_refl
                (clean_host_prints_blank _ _) (clean_host_prints_blank _ _))
      as [_ ->].
    reflexivity.
Defined.

(** X9.  Making a reported path relative to the worktree itself gives the
    path back: for path components that are not empty, not a single dot
    and hold no slash, the components joined by slashes come back
    unchanged (a double dot is kept, nothing is normalized); the empty
    path comes back as a single dot. *)
Theorem reported_name_round_trip (self : Git) (ns : list str) :
  Forall clean_name ns →
  _fix_git_relative_path self (join [sep] ns) (PPath (worktree self))
  = Return (if ns is [] then u "." else join [sep] ns).
Proof.
  intros Hall. unfold _fix_git_relative_path, truediv.
  rewrite parse_join by done. cbn [root names truthy PurePath_of].
  unfold relative_to. cbn [root names]. rewrite bool_decide_true by done.
  assert (strip_prefix (names (worktree self)) (names (worktree self) ++ ns) = Some ns)
    as -> by by apply strip_prefix_spec.
  unfold to_str. cbn [root names]. by destruct ns.
Qed.

Lemma reported_name_round_trip_witness :
  _fix_git_relative_path repo (u "src/python/../setup.py") (PPath (worktree repo))
  = Return (u "src/python/../setup.py").
Proof.
  assert (Forall clean_name [u "src"; u "python"; u ".."; u "setup.py"]) as H.
  { apply (bool_decide_unpack _). by vm_compute. }
  exact (reported_name_round_trip repo [u "src"; u "python"; u ".."; u "setup.py"] H).
Defined.


(** X11.  Whatever [subdir] and [binary] it is given, a [mount] that
    returns yields a handle whose binary is [git] (the binary used for
    discovery is not kept) and whose git directory is the child [.git] of
    its worktree, so that every later command line starts with [git],
    [--git-dir=<worktree>/.git] and [--work-tree=<worktree>]; [mount]
    writes nothing to the log and leaves the slot [_Git] alone. *)
Theorem mount_handle_shape {os : OS} (subdir binary : option PathLike)
    (s s1 : State os) (g : Git) :
  mount subdir binary s = (Return g, s1) →
  _gitcmd g = u "git"
  ∧ _gitdir g = truediv (worktree g) (u ".git")
  ∧ (∀ args, _create_git_cmdline g args
             = u "git" :: (u "--git-dir=" ++ to_str (truediv (worktree g) (u ".git")))
                 :: (u "--work-tree=" ++ to_str (worktree g)) :: args)
  ∧ log s1 = log s ∧ _Git s1 = _Git s.
Proof.
  rewrite mount_unfold.
  destruct (discovery_process_frame subdir binary s) as [Hl Hg].
  destruct (discovery_process subdir binary s) as [[e|[[rc out] err]] s0]; [done|].
  cbn [snd] in Hl, Hg.
  destruct (bytes_decode err); [done|]. case_bool_decide; [|done].
  destruct (bytes_decode out); [done|]. intros [= <- <-].
  repeat split; done.
Qed.

(** Discovery through a binary at another place: the handle runs [git]. *)
Lemma mount_handle_shape_witness :
  ∃ g, fst (mount None (Some (PStr (u "/opt/git/bin/git")))
              (boot relative_host (u "/home/user"))) = Return g
     ∧ _gitcmd g = u "git"
     ∧ _create_git_cmdline g [u "rev-parse"; u "HEAD"]
       = [u "git"; u "--git-dir=/home/user/project/.git";
          u "--work-tree=/home/user/project"; u "rev-parse"; u "HEAD"].
Proof.
  destruct (mount None (Some (PStr (u "/opt/git/bin/git")))
              (boot relative_host (u "/home/user"))) as [[e|g] s1] eqn:Hm;
    [by vm_compute in Hm|].
  exists g. split; [done|].
  destruct (mount_handle_shape (os := relative_host) _ _ _ _ _ Hm)
    as (Hcmd & _ & Hline & _).
  split; [exact Hcmd|]. rewrite Hline.
  vm_compute in Hm. injection Hm as <- _. reflexivity.
Defined.

(** X12.  When [diff-tree] succeeded and its cleansed output holds plain
    names only (no empty line, no whitespace inside a line), [changes_in]
    returns the files of that output, one per line, each made relative to
    the base directory (or raises [ValueError] when one of them does not
    lie under it); the [strip] applied to each name changes nothing. *)
Theorem changes_in_lists_plain_names {os : OS} (self : Git) (diffspec : str)
    (rel : option PathLike) (s s1 : State os) (o : str) :
  _check_output self (diff_tree_args diffspec) s = (Return o, s1) →
  plain_lines o →
  changes_in self diffspec rel s
  = (relativized self (base_of self rel) (reported_files o), s1).
Proof.
  intros Hout Hplain. rewrite changes_in_eval, Hout.
  rewrite (split_plain_lines o Hplain). unfold relativized, reported_files.
  f_equal. apply comprehension_same.
  eapply Forall_impl; [exact Hplain|]. intros x [_ Hx]. cbn beta.
  by rewrite strip_plain.
Qed.

Lemma changes_in_lists_plain_names_witness :
  fst (changes_in repo (u "HEAD") None (boot two_dirs_host (u "/repo")))
  = Return {[ u "src/app.py"; u "README.md" ]}.
Proof.
  assert (_check_output repo (diff_tree_args (u "HEAD")) (boot two_dirs_host (u "/repo"))
          = (Return (u "src/app.py" ++ [10%N] ++ u "README.md"),
             after_run (os := two_dirs_host)
               (_create_git_cmdline repo (diff_tree_args (u "HEAD")))
               (u "/repo") (boot two_dirs_host (u "/repo")))) as Hout
    by by vm_compute.
  rewrite (changes_in_lists_plain_names (os := two_dirs_host) repo (u "HEAD") None
             _ _ _ Hout).
  - by vm_compute.
  - apply (bool_decide_unpack _). by vm_compute.
Defined.

End BehaviourFacts.

(* ===================================================================== *)
(** ** Further behaviour of the task registrar                            *)
(* ===================================================================== *)

Module TaskBehaviourFacts.
Import Py task_registrar TaskSpec TaskFixtures TaskBehaviour TaskExamples.
Import TaskRegistrarFacts.

Section Registry.
Context {Goal TaskClass : Type} (by_name : str → result Goal).

Lemma resolve_all_Return (ds : list str) (gs : list Goal) :
  resolve_all by_name ds = Return gs ↔ Forall2 (resolves_to by_name) ds gs.
Proof.
  revert gs. induction ds as [|d ds IH]; intros gs; cbn [resolve_all].
  - split; [intros [= <-]; constructor | by intros ->%Forall2_nil_inv_l].
  - unfold resolves_to at 1. split.
    + destruct (by_name d) as [e|g] eqn:Hd; [done|].
      destruct (resolve_all by_name ds) as [e|gs'] eqn:Hr; [done|].
      intros [= <-]. constructor; [done|]. by apply IH.
    + intros (g & gs' & Hd & Hrest & ->)%Forall2_cons_inv_l.
      rewrite Hd. apply IH in Hrest. by rewrite Hrest.
Qed.

Lemma resolve_all_Raise (ds : list str) (e : exn) :
  resolve_all by_name ds = Raise e ↔ first_failure by_name ds e.
Proof.
  induction ds as [|d ds IH]; cbn [resolve_all].
  - split; [done|]. intros (pre & d & post & H & _). by destruct pre.
  - destruct (by_name d) as [e0|g] eqn:Hd.
    + split.
      * intros [= ->]. exists [], d, ds. by repeat split.
      * intros ([|x pre] & d' & post & Heq & Hpre & Hfail); injection Heq as <- ->.
        -- congruence.
        -- apply Forall_cons in Hpre as [[g Hg] _]. congruence.
    + destruct (resolve_all by_name ds) as [e0|gs] eqn:Hr.
      * split.
        -- intros [= ->].
           destruct (proj1 IH eq_refl) as (pre & d' & post & -> & Hpre & Hf).
           exists (d :: pre), d', post. repeat split; [|done].
           constructor; eauto.
        -- intros ([|x pre] & d' & post & Heq & Hpre & Hfail); injection Heq as <- ->.
           ++ congruence.
           ++ apply Forall_cons in Hpre as [_ Hpre].
              assert (@inl exn (list Goal) e0 = inl e) as [= ->]; [|done].
              apply IH. by exists pre, d', post.
      * split; [done|].
        intros ([|x pre] & d' & post & Heq & Hpre & Hfail); injection Heq as <- ->.
        -- congruence.
        -- apply Forall_cons in Hpre as [_ Hpre].
           assert (@inr exn (list Goal) gs = inl e) as [=].
           apply IH. by exists pre, d', post.
Qed.

Lemma named_lookup (deps : option (list str)) :
  match deps with
  | Some (d :: ds) => resolve_all by_name (d :: ds)
  | _ => Return []
  end = resolve_all by_name (named deps).
Proof. by destruct deps as [[|d ds]|]. Qed.

Lemma select_task_Raise (f : PyFunction) (e : exn) :
  getargspec_wf (argspec f) →
  select_task (TaskClass := TaskClass) (Function f) = Raise e
  ↔ rejected_signature (argspec f) e.
Proof.
  intros (Hv & Hk & Hd). unfold select_task, rejected_signature.
  fold invalid_signature invalid_arity.
  pose proof (truthy_name_declared _ Hv) as Tv.
  pose proof (truthy_name_declared _ Hk) as Tk.
  pose proof (truthy_tuple_declared _ Hd) as Td.
  destruct (varargs (argspec f)) as [v|] eqn:Ev.
  { rewrite (proj2 Tv) by eauto. cbn [orb]. split.
    - intros [= <-]. left. eauto.
    - intros [[-> _]|(_ & [=] & _)]. done. }
  destruct (keywords (argspec f)) as [k|] eqn:Ek.
  { rewrite (proj2 Tk) by eauto. cbn [truthy_name orb]. split.
    - intros [= <-]. left. eauto.
    - intros [[-> _]|(_ & _ & [=] & _)]. done. }
  destruct (defaults (argspec f)) as [d|] eqn:Ed.
  { rewrite (proj2 Td) by eauto. cbn [truthy_name orb]. split.
    - intros [= <-]. left. eauto.
    - intros [[-> _]|(_ & _ & _ & [=] & _)]. done. }
  cbn [truthy_name truthy_tuple orb].
  destruct (1 <? length (args (argspec f))) eqn:El.
  - apply Nat.ltb_lt in El. split.
    + intros [= <-]. right. by repeat split.
    + intros [(_ & [[? [=]]|[[? [=]]|[? [=]]]])|(-> & _)]. done.
  - apply Nat.ltb_ge in El. split; [done|].
    intros [(_ & [[? [=]]|[[? [=]]|[? [=]]]])|(_ & _ & _ & _ & ?)]. lia.
Qed.

(** X13.  Construction of a registrar succeeds exactly with the record
    that holds the given name and flag, the class selected for the
    action, and the goals the registry returns for the dependency names,
    one per name and in their order (none for [None] and for the empty
    list).  When the lookup of a name fails, construction raises the
    error of the first name that fails, also when the action is invalid:
    the dependencies are resolved before the action is looked at. *)
Theorem registrar_resolves_dependencies (name : str) (action : Action TaskClass)
    (deps : option (list str)) (serialize : bool) :
  let made := TaskRegistrar__init__ by_name name action deps serialize in
  (∀ reg, made = Return reg ↔
     Forall2 (resolves_to by_name) (named deps) (dependencies reg)
     ∧ select_task action = Return (task_type reg)
     ∧ task_registrar.name reg = name
     ∧ task_registrar.serialize reg = serialize)
  ∧ (∀ e, first_failure by_name (named deps) e → made = Raise e).
Proof.
  intros made. subst made. unfold TaskRegistrar__init__. rewrite named_lookup. split.
  - intros reg. rewrite <- resolve_all_Return.
    destruct (resolve_all by_name (named deps)) as [e|gs].
    { split; [done|]. by intros ([=] & _). }
    destruct (select_task action) as [e|t].
    { split; [done|]. by intros (_ & [=] & _). }
    split.
    + by intros [= <-].
    + destruct reg as [sz nm dp tk]. cbn. by intros ([= ->] & [= ->] & -> & ->).
  - intros e He. apply resolve_all_Raise in He. by rewrite He.
Qed.

(** X14.  Construction of a registrar raises in two cases only: the
    lookup of a dependency name fails (the error of the first such name),
    or every name resolves and the action is a function whose signature is
    refused, with the first message when it declares a starred parameter
    or defaults (whatever its fixed arguments) and with the second when
    it declares none of these but more than one fixed argument.  A task
    class is never refused. *)
Theorem registrar_raises_exactly (name : str) (action : Action TaskClass)
    (deps : option (list str)) (serialize : bool) (e : exn) :
  (∀ f, action = Function f → getargspec_wf (argspec f)) →
  TaskRegistrar__init__ by_name name action deps serialize = Raise e
  ↔ first_failure by_name (named deps) e
    ∨ ((∃ gs, Forall2 (resolves_to by_name) (named deps) gs)
       ∧ ∃ f, action = Function f ∧ rejected_signature (argspec f) e).
Proof.
  intros Hwf. unfold TaskRegistrar__init__. rewrite named_lookup.
  destruct (resolve_all by_name (named deps)) as [e0|gs] eqn:Hr.
  - apply resolve_all_Raise in Hr as Hfirst. split.
    + intros [= <-]. by left.
    + intros [He|[[gs Hgs] _]].
      * apply resolve_all_Raise in He. congruence.
      * apply resolve_all_Return in Hgs. congruence.
  - apply resolve_all_Return in Hr as Hall.
    destruct action as [t|f].
    + cbn [select_task]. split; [done|].
      intros [He|[_ (f & [=] & _)]]. apply resolve_all_Raise in He. congruence.
    + specialize (Hwf f eq_refl).
      pose proof (select_task_Raise f e Hwf) as Hsel.
      destruct (select_task (Function f)) as [e0|t] eqn:Hs.
      * split.
        -- intros [= <-]. right. split; [eauto|]. exists f. split; [done|].
           by apply Hsel.
        -- intros [He|[_ (f' & [= <-] & Hrej)]].
           ++ apply resolve_all_Raise in He. congruence.
           ++ apply Hsel in Hrej. congruence.
      * split; [done|]. intros [He|[_ (f' & [= <-] & Hrej)]].
        -- apply resolve_all_Raise in He. congruence.
        -- apply Hsel in Hrej. congruence.
Qed.

End Registry.

(** An unknown dependency is reported although the action has a starred
    parameter. *)
Lemma registrar_raises_exactly_witness :
  TaskRegistrar__init__ (TaskClass := Empty_set) small_registry (u "compile")
    (Function star) (Some [u "resolve"; u "lint"]) true
  = Raise (GoalError (u "unknown goal")).
Proof.
  apply (registrar_raises_exactly (TaskClass := Empty_set) small_registry
           (u "compile") (Function star) (Some [u "resolve"; u "lint"]) true).
  - intros f [= <-]. by repeat split.
  - left. exists [u "resolve"], (u "lint"), []. split; [reflexivity|].
    split; [|reflexivity]. apply Forall_singleton. by eexists.
Defined.

Section Execute.
Context {TaskClass : Type}
  (Task__init__ : list value → list (str * value) → result value).


End Execute.


End TaskBehaviourFacts.
